(** * Client-side session / stream reconciliation of the chat web app

    A shallow embedding of [web/app/api.js], [web/app/api/http.js] and
    [web/app/store.js], and the properties of the streaming reader, the
    session reconciler, the conversation state and the quota guard. *)

From Stdlib Require Import ZArith Ascii String List Lia Bool DecimalString.
From stdpp Require Import base option list strings gmap.

Local Open Scope Z_scope.

(** ** JavaScript string and array primitives used by the sources *)

Module JS.

(** Strings are sequences of code units; [String.length] is the
    [.length] of the source. *)

(** [l.startsWith(p)] *)
Fixpoint startsWith (l p : string) {struct p} : bool :=
  match p with
  | EmptyString => true
  | String a p' =>
      match l with
      | EmptyString => false
      | String b l' => Ascii.eqb b a && startsWith l' p'
      end
  end.

(** [s.slice(n)]: the string without its first [n] code units. *)
Fixpoint slice (n : nat) (s : string) : string :=
  match n, s with
  | O, _ => s
  | S _, EmptyString => EmptyString
  | S k, String _ r => slice k r
  end.

(** Prepends a code unit to the first piece of a split. *)
Definition push_head (c : ascii) (ps : list string) : list string :=
  match ps with
  | [] => [String c ""]
  | p :: ps' => String c p :: ps'
  end.

(** [s.split(sep)] for a non-empty separator: the pieces between the
    leftmost, non-overlapping occurrences of [sep].  [skip] counts the
    code units of a matched separator that are still to be dropped. *)
Fixpoint split_go (sep : string) (skip : nat) (s : string) : list string :=
  match s with
  | EmptyString => [""]
  | String c r =>
      match skip with
      | S k => split_go sep k r
      | O =>
          if startsWith s sep
          then "" :: split_go sep (String.length sep - 1) r
          else push_head c (split_go sep 0 r)
      end
  end.

Definition split (sep s : string) : list string := split_go sep 0 s.

(** [arr.pop()]: the last element (if any) and the array without it. *)
Definition pop {A} (l : list A) : option A * list A := (last l, removelast l).

(** [arr.findIndex(p)]: [None] stands for [-1]. *)
Fixpoint findIndex {A} (p : A -> bool) (l : list A) : option nat :=
  match l with
  | [] => None
  | x :: r => if p x then Some O else option_map S (findIndex p r)
  end.

(** Code units that [trim] removes (those below 256). *)
Definition is_white (c : ascii) : bool :=
  let n := nat_of_ascii c in
  ((9 <=? n)%nat && (n <=? 13)%nat) || (n =? 32)%nat || (n =? 160)%nat.

Fixpoint trimStart (s : string) : string :=
  match s with
  | EmptyString => EmptyString
  | String c r => if is_white c then trimStart r else s
  end.

Fixpoint rev_string (acc s : string) : string :=
  match s with
  | EmptyString => acc
  | String c r => rev_string (String c acc) r
  end.

(** [s.trim()] *)
Definition trim (s : string) : string :=
  rev_string "" (trimStart (rev_string "" (trimStart s))).

(** JavaScript truthiness of a string. *)
Definition truthy (s : string) : bool :=
  match s with EmptyString => false | _ => true end.

End JS.

(** The line feed and the two separators of the streaming reader. *)
Definition LF : string := String "010"%char "".
Definition LFLF : string := String "010"%char (String "010"%char "").

(** ** Streaming reader: [api.streamMessage] of [web/app/api.js] *)

Module Stream.

Inductive Error :=
| HttpError (status : Z)   (* [new Error(`HTTP ${res.status}`)] *)
| AbortError               (* rejection of an aborted fetch or read *)
| NetworkError             (* any other rejection of fetch or read *)
| TypeError.               (* [res.body.getReader()] on a response without body *)

(** The three callbacks handed to [streamMessage]. *)
Inductive Callback :=
| OnChunk (tok : string)
| OnEnd
| OnError (e : Error).

(** Body of [for (const part of parts)]: the callbacks invoked, and
    whether the [return] after the sentinel was taken. *)
Fixpoint process_parts (parts : list string) : list Callback * bool :=
  match parts with
  | [] => ([], false)
  | part :: rest =>
      let lines := JS.split LF part in
      match find (fun l => JS.startsWith l "data: ") lines with
      | None => process_parts rest
      | Some dataLine =>
          let data := JS.slice 6 dataLine in
          if String.eqb data "[DONE]" then ([OnEnd], true)
          else
            let '(cbs, fin) := process_parts rest in
            (OnChunk data :: cbs, fin)
      end
  end.

(** Where the promise chain of one stream stands. *)
Inductive Phase :=
| Fetching                 (* [fetch] is pending *)
| Reading (buf : string)   (* [reader.read()] is pending, [buf] is held *)
| Failing (e : Error)      (* the chain is rejected with [e], [.catch] has not run yet *)
| Settled.                 (* the chain has run to its end *)

(** What happens to a stream, one reaction of the promise chain or one
    call of the handle at a time.  [FetchResolved ok status body] is the
    [.then] callback running on a response, [body] telling whether
    [res.body] is a stream or [null].  [ReadValueAborting v k] is a read
    value during whose processing the consumer calls the handle's
    [abort] from inside the [k]-th callback (counted from 0) invoked
    for that value.  [CatchRuns] is the [.catch] reaction running on a
    rejected chain. *)
Inductive Event :=
| FetchResolved (ok : bool) (status : Z) (body : bool)
| FetchRejected
| ReadValue (v : string)   (* [{ value, done: false }], decoded *)
| ReadValueAborting (v : string) (k : nat)
| ReadDone                 (* [{ done: true }] *)
| ReadRejected
| CatchRuns
| AbortCalled.

(** What an observer sees, in order: callback invocations, and the
    return of each [abort()] call. *)
Inductive Obs :=
| Called (cb : Callback)
| AbortReturned.

(** One turn of the [while (true)] loop on a delivered value. *)
Definition on_value (buf v : string) : Phase * list Callback :=
  let parts := JS.split LFLF (buf +:+ v) in
  let '(lst, parts') := JS.pop parts in
  let buf' := default "" lst in
  let '(cbs, fin) := process_parts parts' in
  (if fin then Settled else Reading buf', cbs).

(** One reaction or one [abort()] call.  The callbacks are taken to
    return normally.

    A throw inside the [.then] callback ([!res.ok], a response without
    body) and a rejected [fetch] or [read] reject the chain; [onError]
    is called when the [.catch] reaction runs, in a later microtask.
    [ctrl.abort()] returns at once; it rejects a pending [fetch] or
    [read] with an [AbortError], and after a call from inside a callback
    the loop over the parts of the value goes on, the next [read] being
    the one that rejects.  On a chain that is rejected or settled
    [abort] finds nothing pending. *)
Definition step (p : Phase) (e : Event) : Phase * list Obs :=
  match p, e with
  | Fetching, FetchResolved false st _ => (Failing (HttpError st), [])
  | Fetching, FetchResolved true _ false => (Failing TypeError, [])
  | Fetching, FetchResolved true _ true => (Reading "", [])
  | Fetching, FetchRejected => (Failing NetworkError, [])
  | Reading buf, ReadValue v =>
      let '(p', cbs) := on_value buf v in (p', map Called cbs)
  | Reading buf, ReadValueAborting v k =>
      let '(p', cbs) := on_value buf v in
      if (k <? List.length cbs)%nat then
        (match p' with Settled => Settled | _ => Failing AbortError end,
         map Called (firstn (S k) cbs) ++ AbortReturned :: map Called (skipn (S k) cbs))
      else (p', map Called cbs)
  | Reading _, ReadDone => (Settled, [Called OnEnd])
  | Reading _, ReadRejected => (Failing NetworkError, [])
  | Fetching, AbortCalled
  | Reading _, AbortCalled => (Failing AbortError, [AbortReturned])
  | Failing err, CatchRuns => (Settled, [Called (OnError err)])
  | Failing err, AbortCalled => (Failing err, [AbortReturned])
  | Settled, AbortCalled => (Settled, [AbortReturned])
  | _, _ => (p, [])
  end.

Fixpoint run (p : Phase) (es : list Event) : Phase * list Obs :=
  match es with
  | [] => (p, [])
  | e :: es' =>
      let '(p1, o1) := step p e in
      let '(p2, o2) := run p1 es' in
      (p2, o1 ++ o2)
  end.

Definition callbacks (os : list Obs) : list Callback :=
  omap (fun o => match o with Called cb => Some cb | AbortReturned => None end) os.

(** A successful response whose body arrives as [chunks] and then
    closes. *)
Definition body_events (chunks : list string) : list Event :=
  FetchResolved true 200 true :: map ReadValue chunks ++ [ReadDone].

Definition streamMessage (chunks : list string) : list Callback :=
  callbacks (run Fetching (body_events chunks)).2.

(** The callbacks of a body whose complete frames are [parts], read in
    one piece: the loop body on them, then the [onEnd] of the closed
    body unless the sentinel returned first. *)
Definition frames_events (parts : list string) : list Callback :=
  let '(cbs, fin) := process_parts parts in
  if fin then cbs else cbs ++ [OnEnd].

(** A frame carrying [tok] on a data line, with its terminator. *)
Definition frame (tok : string) : string := "data: " +:+ tok +:+ LFLF.

Fixpoint concat_str (l : list string) : string :=
  match l with
  | [] => ""
  | s :: r => s +:+ concat_str r
  end.

(** Tokens before the sentinel. *)
Fixpoint before_done (toks : list string) : list string :=
  match toks with
  | [] => []
  | t :: r => if String.eqb t "[DONE]" then [] else t :: before_done r
  end.

(** Does [s] hold a line feed? *)
Fixpoint has_LF (s : string) : bool :=
  match s with
  | EmptyString => false
  | String c r => Ascii.eqb c "010"%char || has_LF r
  end.

(** Does [s] hold a frame terminator? *)
Fixpoint has_LFLF (s : string) : bool :=
  match s with
  | EmptyString => false
  | String c r =>
      match r with
      | EmptyString => false
      | String d _ =>
          (Ascii.eqb c "010"%char && Ascii.eqb d "010"%char) || has_LFLF r
      end
  end.

(** Has the chain still a callback to invoke? *)
Definition in_flight (p : Phase) : bool :=
  match p with
  | Settled => false
  | Fetching | Reading _ | Failing _ => true
  end.

Definition is_abort (e : Event) : bool :=
  match e with
  | AbortCalled => true
  | _ => false
  end.

(** The callbacks invoked after the first [abort()] has returned. *)
Fixpoint after_abort (os : list Obs) : list Callback :=
  match os with
  | [] => []
  | AbortReturned :: r => callbacks r
  | Called _ :: r => after_abort r
  end.

End Stream.


(** ** Transport: the response interceptors *)

Module Transport.

(** The part of the browser the interceptors touch: the [token] entry of
    [localStorage] and [window.location.hash]. *)
Record Browser := {
  localStorage_token : option string;
  location_hash : string;
}.

(** [err?.response?.status] *)
Record AxiosError := { response_status : option Z }.

(** How the promise of the triggering call settles. *)
Inductive Settlement :=
| Resolves
| Rejects (err : AxiosError).

Definition is_401 (err : AxiosError) : bool :=
  match response_status err with
  | Some st => st =? 401
  | None => false
  end.

(** [http.interceptors.response.use(_, onRejected)] of [web/app/api.js] *)
Definition api_onRejected (err : AxiosError) (b : Browser) : Browser * Settlement :=
  let b' :=
    if is_401 err
    then {| localStorage_token := None; location_hash := "#/login" |}
    else b in
  (b', Rejects err).

(** [axiosInstance.interceptors.response.use(_, onRejected)] of
    [web/app/api/http.js] *)
Definition http_onRejected (err : AxiosError) (b : Browser) : Browser * Settlement :=
  let b' :=
    if is_401 err
    then {| localStorage_token := localStorage_token b; location_hash := "#/login" |}
    else b in
  (b', Rejects err).

End Transport.

(** ** Quota constants of [web/app/api.js] *)

Module QUOTA.
Definition MAX_SESSIONS : nat := 100.
Definition MAX_MSG_PER_SESSION : nat := 1000.
Definition MAX_INPUT_CHARS : nat := 4000.
End QUOTA.

(** ** The reactive store of [web/app/store.js] *)

Module Store.

Record Model := { alias : string }.

(** A session object as the backend returns it.  [rag_corpus_ids] and
    [meta_stream] ([s.meta && s.meta.stream]) may be missing. *)
Record Session := {
  id : string;
  model_alias : string;
  use_rag : bool;
  rag_corpus_ids : option (list string);
  meta_stream : option bool;
  title : string;
}.

Inductive Role := user | assistant.

Record Message := {
  msg_id : Z;
  session_id : string;
  role : Role;
  content_text : string;
  created_at : Z;
}.

Definition set_content_text (m : Message) (c : string) : Message :=
  {| msg_id := msg_id m; session_id := session_id m; role := role m;
     content_text := c; created_at := created_at m |}.

(** The handle kept in [store.streamer]: the stream it belongs to. *)
Record Streamer := { stream_session : string; stream_message : Z }.

Record State := {
  token : string;
  models : list Model;
  modelAlias : string;
  useRag : bool;
  useStream : bool;
  ragCorpusIds : list string;
  sessions : list Session;
  activeSessionId : string;
  messages : gmap string (list Message);
  streaming : bool;
  streamer : option Streamer;
}.

Definition set_modelAlias (v : string) (s : State) : State :=
  {| token := token s; models := models s; modelAlias := v; useRag := useRag s;
     useStream := useStream s; ragCorpusIds := ragCorpusIds s; sessions := sessions s;
     activeSessionId := activeSessionId s; messages := messages s;
     streaming := streaming s; streamer := streamer s |}.
Definition set_useRag (v : bool) (s : State) : State :=
  {| token := token s; models := models s; modelAlias := modelAlias s; useRag := v;
     useStream := useStream s; ragCorpusIds := ragCorpusIds s; sessions := sessions s;
     activeSessionId := activeSessionId s; messages := messages s;
     streaming := streaming s; streamer := streamer s |}.
Definition set_useStream (v : bool) (s : State) : State :=
  {| token := token s; models := models s; modelAlias := modelAlias s; useRag := useRag s;
     useStream := v; ragCorpusIds := ragCorpusIds s; sessions := sessions s;
     activeSessionId := activeSessionId s; messages := messages s;
     streaming := streaming s; streamer := streamer s |}.
Definition set_ragCorpusIds (v : list string) (s : State) : State :=
  {| token := token s; models := models s; modelAlias := modelAlias s; useRag := useRag s;
     useStream := useStream s; ragCorpusIds := v; sessions := sessions s;
     activeSessionId := activeSessionId s; messages := messages s;
     streaming := streaming s; streamer := streamer s |}.
Definition set_sessions (v : list Session) (s : State) : State :=
  {| token := token s; models := models s; modelAlias := modelAlias s; useRag := useRag s;
     useStream := useStream s; ragCorpusIds := ragCorpusIds s; sessions := v;
     activeSessionId := activeSessionId s; messages := messages s;
     streaming := streaming s; streamer := streamer s |}.
Definition set_activeSessionId (v : string) (s : State) : State :=
  {| token := token s; models := models s; modelAlias := modelAlias s; useRag := useRag s;
     useStream := useStream s; ragCorpusIds := ragCorpusIds s; sessions := sessions s;
     activeSessionId := v; messages := messages s;
     streaming := streaming s; streamer := streamer s |}.
Definition set_messages (v : gmap string (list Message)) (s : State) : State :=
  {| token := token s; models := models s; modelAlias := modelAlias s; useRag := useRag s;
     useStream := useStream s; ragCorpusIds := ragCorpusIds s; sessions := sessions s;
     activeSessionId := activeSessionId s; messages := v;
     streaming := streaming s; streamer := streamer s |}.
Definition set_streaming (v : bool) (s : State) : State :=
  {| token := token s; models := models s; modelAlias := modelAlias s; useRag := useRag s;
     useStream := useStream s; ragCorpusIds := ragCorpusIds s; sessions := sessions s;
     activeSessionId := activeSessionId s; messages := messages s;
     streaming := v; streamer := streamer s |}.
Definition set_streamer (v : option Streamer) (s : State) : State :=
  {| token := token s; models := models s; modelAlias := modelAlias s; useRag := useRag s;
     useStream := useStream s; ragCorpusIds := ragCorpusIds s; sessions := sessions s;
     activeSessionId := activeSessionId s; messages := messages s;
     streaming := streaming s; streamer := v |}.

(** The argument [{ modelAlias, useRag, ragCorpusIds, useStream }]; a
    missing ([undefined]) field is [None]. *)
Record Config := {
  c_modelAlias : option string;
  c_useRag : option bool;
  c_ragCorpusIds : option (list string);
  c_useStream : option bool;
}.

(** Body of [POST /api/chat/sessions]. *)
Record CreateBody := {
  b_model_alias : string;
  b_use_rag : bool;
  b_rag_corpus_ids : list string;
  b_meta_stream : bool;
}.

(** Body of [PATCH /api/chat/sessions/{id}]; only the given fields are set. *)
Record PatchBody := {
  p_model_alias : option string;
  p_use_rag : option bool;
  p_rag_corpus_ids : option (list string);
  p_meta_stream : option bool;
}.

(** The calls of [api] that the store issues. *)
Inductive Request :=
| CreateSession (body : CreateBody)
| PatchSession (sid : string) (body : PatchBody)
| DeleteSession (sid : string)
| ListMessages (sid : string) (limit offset : Z)
| SendMessage (sid content : string)
| StreamMessage (sid content : string).

(** The backend as the store sees it during one operation: the reply to
    each call, [None] when the promise rejects. *)
Record Backend := {
  createSession : CreateBody -> option Session;
  patchSession : string -> PatchBody -> option Session;
  deleteSession_reply : string -> option unit;
  listMessages : string -> Z -> Z -> option (list Message);
  sendMessage : string -> string -> option Message;   (* [result.answer_message] *)
}.

Inductive AlertMsg :=
| SessionQuota     (* session limit reached *)
| NoModel          (* no model available *)
| InputTooLong     (* input longer than MAX_INPUT_CHARS *)
| MessageQuota     (* per-session message limit reached *)
| SendFailed.

(** The alerts that report a failed quota check ([QuotaExceeded]). *)
Definition QuotaExceeded (a : AlertMsg) : bool :=
  match a with
  | SessionQuota | InputTooLong | MessageQuota => true
  | NoModel | SendFailed => false
  end.

(** What an operation does besides changing the store. *)
Inductive Effect :=
| Net (r : Request)          (* a network call is issued *)
| Alerted (a : AlertMsg)     (* [alert(...)] *)
| Aborted (h : Streamer).    (* [streamer.abort()] *)

Definition net_calls (l : list Effect) : list Request :=
  omap (fun e => match e with Net r => Some r | _ => None end) l.

Definition alerts (l : list Effect) : list AlertMsg :=
  omap (fun e => match e with Alerted a => Some a | _ => None end) l.

Inductive Error :=
| RequestFailed (r : Request)   (* the promise of [r] rejected *)
| TypeError.                    (* property access on [undefined] *)

(** An [async] method either returns or throws (its promise rejects). *)
Inductive Outcome (A : Type) :=
| Ret (a : A)
| Throw (e : Error).
Arguments Ret {A} a.
Arguments Throw {A} e.

(** Store operations: state passing, with the effects in order.  Each
    operation runs without another one interleaved at its awaits. *)
Definition Op (A : Type) : Type := State -> Outcome A * State * list Effect.

Definition ret {A} (a : A) : Op A := fun st => (Ret a, st, []).

Definition bind {A B} (m : Op A) (k : A -> Op B) : Op B := fun st =>
  match m st with
  | (Ret a, st1, l1) => let '(o, st2, l2) := k a st1 in (o, st2, l1 ++ l2)
  | (Throw e, st1, l1) => (Throw e, st1, l1)
  end.

Definition get : Op State := fun st => (Ret st, st, []).
Definition modify (f : State -> State) : Op unit := fun st => (Ret tt, f st, []).
Definition emit (e : Effect) : Op unit := fun st => (Ret tt, st, [e]).
Definition alert (a : AlertMsg) : Op unit := emit (Alerted a).
Definition throw {A} (e : Error) : Op A := fun st => (Throw e, st, []).

(** [await api.call(...)]: the call is issued, then returns its reply or
    throws. *)
Definition await {A} (r : Request) (reply : option A) : Op A := fun st =>
  (match reply with Some a => Ret a | None => Throw (RequestFailed r) end, st, [Net r]).

(** [try { m } catch { h }] *)
Definition try_catch {A} (m : Op A) (h : Op A) : Op A := fun st =>
  match m st with
  | (Throw _, st1, l1) => let '(o, st2, l2) := h st1 in (o, st2, l1 ++ l2)
  | r => r
  end.

Notation "'do' x <- m ; k" := (bind m (fun x => k))
  (at level 10, x name, m at level 100, k at level 200).
Notation "m ;; k" := (bind m (fun _ => k))
  (at level 100, k at level 200, right associativity).

(** [a || b] on strings *)
Definition or_else (a b : string) : string := if JS.truthy a then a else b.

(** [(s.meta && s.meta.stream) ?? this.useStream], and the other fields
    copied from a session into the configuration snapshot. *)
Definition sync_config (s : Session) (st : State) : State :=
  set_useStream (default (useStream st) (meta_stream s))
    (set_ragCorpusIds (default [] (rag_corpus_ids s))
      (set_useRag (use_rag s)
        (set_modelAlias (model_alias s) st))).

(** [sessionById(id)] *)
Definition sessionById (st : State) (sid : string) : option Session :=
  find (fun s => String.eqb (id s) sid) (sessions st).

(** [currentMessages()] *)
Definition currentMessages (st : State) : list Message :=
  default [] (messages st !! activeSessionId st).

(** [setMessages(sessionId, list)] *)
Definition setMessages (sid : string) (l : list Message) (st : State) : State :=
  set_messages (<[sid := l]> (messages st)) st.

(** [this.messages[sid]?.length || 0] *)
Definition message_count (st : State) (sid : string) : nat :=
  List.length (default [] (messages st !! sid)).

(** [modelAlias || this.modelAlias || (this.models[0]?.alias || '')] *)
Definition resolve_alias (c : Config) (st : State) : string :=
  or_else (default "" (c_modelAlias c))
    (or_else (modelAlias st)
       (match models st with m :: _ => alias m | [] => "" end)).

(** The [body] of [_createAndActivate]. *)
Definition create_body (c : Config) (st : State) (alias : string) : CreateBody :=
  {| b_model_alias := alias;
     b_use_rag := default false (c_useRag c);
     b_rag_corpus_ids := default [] (c_ragCorpusIds c);
     b_meta_stream := default (useStream st) (c_useStream c) |}.

(** The store after [_createAndActivate] got [s] from the backend:
    [unshift], the new active id, the snapshot, and an empty cache. *)
Definition activate (s : Session) (st : State) : State :=
  setMessages (id s) []
    (sync_config s
      (set_activeSessionId (id s)
        (set_sessions (s :: sessions st) st))).

(** The [body] of [_tryPatchConfig]: only the fields that are not
    [null] or [undefined]. *)
Definition patch_body (c : Config) : PatchBody :=
  {| p_model_alias := c_modelAlias c;
     p_use_rag := c_useRag c;
     p_rag_corpus_ids := c_ragCorpusIds c;
     p_meta_stream := c_useStream c |}.

(** The write-back of [_tryPatchConfig] after a successful patch. *)
Definition write_back (sessionId : string) (updated : Session) (st : State) : State :=
  let st1 :=
    match JS.findIndex (fun s => String.eqb (id s) sessionId) (sessions st) with
    | Some idx => set_sessions (<[idx := updated]> (sessions st)) st
    | None => st
    end in
  sync_config updated st1.

(** The argument of the fallback call in the [catch] of
    [_tryPatchConfig]: [x ?? this.x] for each field. *)
Definition fallback_config (c : Config) (st : State) : Config :=
  {| c_modelAlias := Some (default (modelAlias st) (c_modelAlias c));
     c_useRag := Some (default (useRag st) (c_useRag c));
     c_ragCorpusIds := Some (default (ragCorpusIds st) (c_ragCorpusIds c));
     c_useStream := Some (default (useStream st) (c_useStream c)) |}.

Section Operations.

Variable be : Backend.

Definition _createAndActivate (c : Config) : Op unit :=
  do st <- get;
  if (QUOTA.MAX_SESSIONS <=? List.length (sessions st))%nat
  then alert SessionQuota
  else
    let alias := resolve_alias c st in
    if negb (JS.truthy alias) then alert NoModel
    else
      let body := create_body c st alias in
      do s <- await (CreateSession body) (createSession be body);
      modify (activate s).

Definition _tryPatchConfig (sessionId : string) (c : Config) : Op unit :=
  try_catch
    (let body := patch_body c in
     do updated <- await (PatchSession sessionId body) (patchSession be sessionId body);
     modify (write_back sessionId updated))
    (do st <- get;
     _createAndActivate (fallback_config c st)).

Definition ensureActiveSession (c : Config) : Op unit :=
  do st <- get;
  match sessions st with
  | [] => _createAndActivate c
  | s0 :: _ =>
      (if JS.truthy (activeSessionId st) then ret tt
       else modify (set_activeSessionId (id s0)));;
      do st <- get;
      let sid := activeSessionId st in
      let hasMsg := (0 <? message_count st sid)%nat in
      if negb hasMsg then _tryPatchConfig sid c
      else _createAndActivate c
  end.

Definition switchSession (sessionId : string) : Op unit :=
  do st <- get;
  if String.eqb sessionId (activeSessionId st) then ret tt
  else
    modify (set_activeSessionId sessionId);;
    try_catch
      (do msgs <- await (ListMessages sessionId 500 0) (listMessages be sessionId 500 0);
       modify (setMessages sessionId msgs))
      (modify (fun st => setMessages sessionId (default [] (messages st !! sessionId)) st));;
    do st <- get;
    match sessionById st sessionId with
    | Some s => modify (sync_config s)
    | None => ret tt
    end.

Definition deleteSession (sessionId : string) : Op unit :=
  try_catch
    (await (DeleteSession sessionId) (deleteSession_reply be sessionId))
    (ret tt);;
  modify (fun st =>
    set_sessions (List.filter (fun s => negb (String.eqb (id s) sessionId)) (sessions st)) st);;
  modify (fun st => set_messages (delete sessionId (messages st)) st);;
  do st <- get;
  if String.eqb (activeSessionId st) sessionId then
    modify (set_activeSessionId
              (match sessions st with s0 :: _ => id s0 | [] => "" end));;
    do st <- get;
    if JS.truthy (activeSessionId st) then switchSession (activeSessionId st)
    else ret tt
  else ret tt.

(** [this.messages[sid] = [...(this.messages[sid] || []), m]] *)
Definition push_message (sid : string) (m : Message) (st : State) : State :=
  set_messages (<[sid := default [] (messages st !! sid) ++ [m]]> (messages st)) st.

(** [send(input)]; [clock k] is the value of the [k]-th [Date.now()]. *)
Definition send (clock : nat -> Z) (input : string) : Op unit :=
  if negb (JS.truthy input) || negb (JS.truthy (JS.trim input)) then ret tt
  else if (QUOTA.MAX_INPUT_CHARS <? String.length input)%nat then alert InputTooLong
  else
    do st <- get;
    let sid := activeSessionId st in
    if (QUOTA.MAX_MSG_PER_SESSION <=? message_count st sid)%nat then alert MessageQuota
    else
      let userMsg :=
        {| msg_id := clock 0%nat; session_id := sid; role := user;
           content_text := input; created_at := clock 1%nat / 1000 |} in
      modify (push_message sid userMsg);;
      do st <- get;
      if negb (useStream st) then
        try_catch
          (do ans <- await (SendMessage sid input) (sendMessage be sid input);
           modify (push_message sid ans))
          (alert SendFailed)
      else
        modify (set_streaming true);;
        let aiMsgId := clock 2%nat + 1 in
        let aiMsg :=
          {| msg_id := aiMsgId; session_id := sid; role := assistant;
             content_text := ""; created_at := clock 3%nat / 1000 |} in
        modify (push_message sid aiMsg);;
        emit (Net (StreamMessage sid input));;
        modify (set_streamer (Some {| stream_session := sid; stream_message := aiMsgId |})).

End Operations.

(** The [onChunk] closure of [send]: [acc] is its accumulator, the
    result is the new accumulator. *)
Definition onChunk (sid : string) (aiMsgId : Z) (acc tok : string) : Op string :=
  let acc' := acc +:+ tok in
  do st <- get;
  match messages st !! sid with
  | None => throw TypeError
  | Some list =>
      match JS.findIndex (fun m => msg_id m =? aiMsgId) list with
      | Some lastIdx =>
          match list !! lastIdx with
          | Some m =>
              modify (fun st =>
                set_messages
                  (<[sid := <[lastIdx := set_content_text m acc']> list]> (messages st)) st)
          | None => ret tt
          end
      | None => ret tt
      end;;
      ret acc'
  end.

(** The reader invoking [onChunk] once per token, in order. *)
Fixpoint onChunks (sid : string) (aiMsgId : Z) (acc : string) (toks : list string)
    : Op string :=
  match toks with
  | [] => ret acc
  | tok :: rest =>
      do acc' <- onChunk sid aiMsgId acc tok;
      onChunks sid aiMsgId acc' rest
  end.

(** The [onEnd] and [onError] closures of [send]. *)
Definition onEnd : Op unit :=
  modify (fun st => set_streamer None (set_streaming false st)).
Definition onError : Op unit :=
  modify (fun st => set_streamer None (set_streaming false st)).

Definition stopStream : Op unit :=
  do st <- get;
  match streamer st with
  | Some h => emit (Aborted h)
  | None => ret tt
  end;;
  modify (fun st => set_streamer None (set_streaming false st)).

End Store.

(** ** Sample data for the closed examples *)

Module Sample.
Import Store.

Definition session (sid : string) : Session :=
  {| id := sid; model_alias := "m1"; use_rag := false;
     rag_corpus_ids := Some []; meta_stream := Some true; title := "" |}.

(** [n] sessions with the distinct ids [s0], [s1], ... *)
Definition numbered (n : nat) : list Session :=
  map (fun k => session ("s" +:+ NilEmpty.string_of_uint (Nat.to_uint k))) (seq 0 n).

Definition message (mid : Z) (sid : string) (r : Role) (t : string) : Message :=
  {| msg_id := mid; session_id := sid; role := r; content_text := t; created_at := 0 |}.

Definition state (ss : list Session) (active : string)
    (msgs : gmap string (list Message)) : State :=
  {| token := "tok"; models := [ {| alias := "m1" |} ]; modelAlias := "m1";
     useRag := false; useStream := true; ragCorpusIds := [];
     sessions := ss; activeSessionId := active; messages := msgs;
     streaming := false; streamer := None |}.

Definition config (a : string) : Config :=
  {| c_modelAlias := Some a; c_useRag := Some false;
     c_ragCorpusIds := Some []; c_useStream := Some true |}.

(** The session [fresh] that the backend creates from a body. *)
Definition created (b : CreateBody) : Session :=
  {| id := "fresh"; model_alias := b_model_alias b; use_rag := b_use_rag b;
     rag_corpus_ids := Some (b_rag_corpus_ids b);
     meta_stream := Some (b_meta_stream b); title := "" |}.

(** A backend that answers every call. *)
Definition backend_up : Backend :=
  {| createSession := fun b => Some (created b);
     patchSession := fun sid b =>
       Some {| id := sid; model_alias := default "m1" (p_model_alias b);
               use_rag := default false (p_use_rag b);
               rag_corpus_ids := p_rag_corpus_ids b;
               meta_stream := p_meta_stream b; title := "" |};
     deleteSession_reply := fun _ => Some tt;
     listMessages := fun _ _ _ => Some [];
     sendMessage := fun sid _ => Some (message 7 sid assistant "ok") |}.

(** A backend that rejects every call. *)
Definition backend_down : Backend :=
  {| createSession := fun _ => None;
     patchSession := fun _ _ => None;
     deleteSession_reply := fun _ => None;
     listMessages := fun _ _ _ => None;
     sendMessage := fun _ _ => None |}.

(** A backend on which sessions cannot be patched (405/409). *)
Definition backend_no_patch : Backend :=
  {| createSession := createSession backend_up;
     patchSession := fun _ _ => None;
     deleteSession_reply := deleteSession_reply backend_up;
     listMessages := listMessages backend_up;
     sendMessage := sendMessage backend_up |}.

(** One session [s1], active, without messages. *)
Definition idle : State := state [session "s1"] "s1" ∅.

(** One session [s1], active, with one message. *)
Definition busy : State :=
  state [session "s1"] "s1" {[ "s1" := [message 1 "s1" user "hi"] ]}.

(** The session list is full; the active session [s0] has a message. *)
Definition crowded : State :=
  state (numbered 100) "s0" {[ "s0" := [message 1 "s0" user "hi"] ]}.

(** A stream for message 2 of [s1] is running, its entry is in place. *)
Definition streaming_state : State :=
  state [session "s1"] "s1"
    {[ "s1" := [message 1 "s1" user "hi"; message 2 "s1" assistant ""] ]}.

(** The same stream after the cache of [s1] was replaced by a list
    that lacks entry 2. *)
Definition replaced_state : State :=
  state [session "s1"] "s1" {[ "s1" := [message 1 "s1" user "hi"] ]}.

Definition clock (k : nat) : Z := 1700000000000 + Z.of_nat k.

Fixpoint spaces (n : nat) : string :=
  match n with
  | O => ""
  | S k => String " " (spaces k)
  end.

(** An input of 4001 code units with a non-blank one. *)
Definition long_text : string := String "x" (spaces 4000).

(** The create body for the configuration [config "m2"] on [st]. *)
Definition m2_body (st : State) : CreateBody :=
  create_body (config "m2") st (resolve_alias (config "m2") st).

End Sample.

(** ** The store's closures driven by the reader *)

Module Delivery.
Import Store.

(** After a terminal callback ([onEnd], [onError]) nothing follows. *)
Fixpoint well_ended (cbs : list Stream.Callback) : bool :=
  match cbs with
  | [] => true
  | Stream.OnChunk _ :: r => well_ended r
  | (Stream.OnEnd | Stream.OnError _) :: r =>
      match r with [] => true | _ :: _ => false end
  end.

(** The callbacks that [streamMessage] invokes, run on the closures that
    [send] handed to it, in order; [acc] is the accumulator of
    [onChunk]. *)
Fixpoint deliver_go (sid : string) (aiMsgId : Z) (acc : string)
    (cbs : list Stream.Callback) : Op unit :=
  match cbs with
  | [] => ret tt
  | Stream.OnChunk tok :: r =>
      do acc' <- onChunk sid aiMsgId acc tok;
      deliver_go sid aiMsgId acc' r
  | Stream.OnEnd :: r => onEnd;; deliver_go sid aiMsgId acc r
  | Stream.OnError _ :: r => onError;; deliver_go sid aiMsgId acc r
  end.

(** A callback that throws inside the [.then] of [streamMessage] ends
    the reader and reaches its [.catch], which calls [onError]. *)
Definition deliver (sid : string) (aiMsgId : Z) (cbs : list Stream.Callback) : Op unit :=
  try_catch (deliver_go sid aiMsgId "" cbs) onError.

(** The user entry and the empty assistant entry that [send] appends. *)
Definition userMsg (clock : nat -> Z) (sid input : string) : Message :=
  {| msg_id := clock 0%nat; session_id := sid; role := user;
     content_text := input; created_at := clock 1%nat / 1000 |}.

Definition aiMsg (clock : nat -> Z) (sid : string) : Message :=
  {| msg_id := clock 2%nat + 1; session_id := sid; role := assistant;
     content_text := ""; created_at := clock 3%nat / 1000 |}.

(** The store on which [ensureActiveSession] decides: an unset active
    id is first set to the head of the list. *)
Definition with_active (st : State) : State :=
  match sessions st with
  | [] => st
  | s0 :: _ =>
      if JS.truthy (activeSessionId st) then st
      else set_activeSessionId (id s0) st
  end.

(** The session list after the write-back of a patch: the first session
    of that id is replaced. *)
Fixpoint replace_first (sid : string) (upd : Session) (l : list Session) : list Session :=
  match l with
  | [] => []
  | x :: r => if String.eqb (id x) sid then upd :: r else x :: replace_first sid upd r
  end.

(** The configuration snapshot of a store. *)
Definition snapshot (st : State) : string * bool * list string * bool :=
  (modelAlias st, useRag st, ragCorpusIds st, useStream st).

End Delivery.

(** ** Transport: the request side and the stored credential *)

Module Requests.
Import Transport.

(** [cfg.headers.Authorization]; the other headers are not touched. *)
Record Headers := { Authorization : option string }.

(** [localStorage.getItem('token')]: the entry ([null] is [None]), or
    no result when the browser denies access to the storage and the
    call throws. *)
Definition getItem (denied : bool) (b : Browser) : option (option string) :=
  if denied then None else Some (localStorage_token b).

(** [http.interceptors.request.use(...)] of [web/app/api.js]; [None]
    when the interceptor throws. *)
Definition api_onRequest (denied : bool) (b : Browser) (cfg : Headers) : option Headers :=
  match getItem denied b with
  | None => None
  | Some token =>
      Some (if JS.truthy (default "" token)
            then {| Authorization := Some ("Bearer " +:+ default "" token) |}
            else cfg)
  end.

(** [getToken()] of [web/app/api/http.js]:
    [try { return localStorage.getItem("token") || ""; } catch { return ""; }] *)
Definition getToken (denied : bool) (b : Browser) : string :=
  match getItem denied b with
  | Some token => Store.or_else (default "" token) ""
  | None => ""
  end.

(** [axiosInstance.interceptors.request.use(...)] of
    [web/app/api/http.js] *)
Definition http_onRequest (denied : bool) (b : Browser) (cfg : Headers) : Headers :=
  let t := getToken denied b in
  if JS.truthy t then {| Authorization := Some ("Bearer " +:+ t) |} else cfg.

(** The [Authorization] header that [streamMessage] gives to [fetch]:
    [`Bearer ${localStorage.getItem('token') || ''}`] *)
Definition stream_authorization (b : Browser) : string :=
  "Bearer " +:+ Store.or_else (default "" (localStorage_token b)) "".

Definition set_token (v : string) (s : Store.State) : Store.State :=
  {| Store.token := v; Store.models := Store.models s;
     Store.modelAlias := Store.modelAlias s; Store.useRag := Store.useRag s;
     Store.useStream := Store.useStream s; Store.ragCorpusIds := Store.ragCorpusIds s;
     Store.sessions := Store.sessions s; Store.activeSessionId := Store.activeSessionId s;
     Store.messages := Store.messages s; Store.streaming := Store.streaming s;
     Store.streamer := Store.streamer s |}.

(** [setToken(t)] of [web/app/store.js] *)
Definition setToken (t : string) (w : Store.State * Browser) : Store.State * Browser :=
  (set_token t w.1,
   {| localStorage_token := Some t; location_hash := location_hash w.2 |}).

(** [logout()] of [web/app/store.js] *)
Definition logout (w : Store.State * Browser) : Store.State * Browser :=
  (set_token "" w.1,
   {| localStorage_token := None; location_hash := "#/login" |}).

End Requests.

(** ** The markdown of [web/app/components/MessageList.js] *)

Module Markdown.

(** [s.replace(/c/g, rep)] for a single character [c] and a replacement
    without [$] patterns. *)
Fixpoint replace_char (c : ascii) (rep : string) (s : string) : string :=
  match s with
  | EmptyString => EmptyString
  | String d r =>
      if Ascii.eqb d c then rep +:+ replace_char c rep r
      else String d (replace_char c rep r)
  end.

(** [raw.replace(/&/g,'&amp;').replace(/</g,'&lt;').replace(/>/g,'&gt;')] *)
Definition escape (raw : string) : string :=
  replace_char ">" "&gt;" (replace_char "<" "&lt;" (replace_char "&" "&amp;" raw)).

(** [esc.replace(/`([^`]+)`/g, '<code>$1</code>')], scanning left to
    right.  [inside] is [None] outside a candidate match; after a
    backquote it holds the characters read since.  A second backquote
    closes the match when some character was read, and otherwise is
    itself the next candidate opening; a candidate still open at the end
    does not match and its text stays as it is. *)
Fixpoint inline_go (inside : option string) (s : string) : string :=
  match s with
  | EmptyString =>
      match inside with
      | None => EmptyString
      | Some acc => String "`" acc
      end
  | String c r =>
      match inside with
      | None =>
          if Ascii.eqb c "`" then inline_go (Some EmptyString) r
          else String c (inline_go None r)
      | Some acc =>
          if Ascii.eqb c "`" then
            match acc with
            | EmptyString => String "`" (inline_go (Some EmptyString) r)
            | String _ _ => "<code>" +:+ acc +:+ "</code>" +:+ inline_go None r
            end
          else inline_go (Some (acc +:+ String c EmptyString)) r
      end
  end.

Definition inline (s : string) : string := inline_go None s.

(** [md(raw)] *)
Definition md (raw : string) : string :=
  if negb (JS.truthy raw) then ""
  else replace_char "010" "<br/>" (inline (escape raw)).

(** [render(t)]: [md(t || '')] *)
Definition render (t : option string) : string := md (default "" t).

(** Every character of [s] satisfies [P]. *)
Fixpoint all_chars (P : ascii -> bool) (s : string) : bool :=
  match s with
  | EmptyString => true
  | String c r => P c && all_chars P r
  end.

Definition not_angle (c : ascii) : bool :=
  negb (Ascii.eqb c "<") && negb (Ascii.eqb c ">").

(** The characters that [md] acts on. *)
Definition is_special (c : ascii) : bool :=
  Ascii.eqb c "&" || Ascii.eqb c "<" || Ascii.eqb c ">" ||
  Ascii.eqb c "`" || Ascii.eqb c "010".

(** The tags that [md] writes. *)
Definition tags : list string := ["<code>"; "</code>"; "<br/>"].

(** Text in which every angle bracket belongs to one of the tags. *)
Inductive Safe : string -> Prop :=
| Safe_nil : Safe ""
| Safe_char (c : ascii) (s : string) : not_angle c = true -> Safe s -> Safe (String c s)
| Safe_tag (t s : string) : In t tags -> Safe s -> Safe (t +:+ s).

End Markdown.

(** ** The components that call the store *)

Module Components.
Import Store.

(** No white space in front. *)
Definition no_lead (s : string) : bool :=
  match s with
  | EmptyString => true
  | String c _ => negb (JS.is_white c)
  end.

Section WithBackend.

Variable be : Backend.

(** [send] of [ChatComposer]: [input] is the value of the text area,
    the result is its value afterwards. *)
Definition composer_send (clock : nat -> Z) (input : string) : Op string :=
  let text := JS.trim input in
  if negb (JS.truthy text) then ret input
  else send be clock text;; ret "".

(** [onModelChange] of [ChatToolbar]; [selected] is the value of the
    select box. *)
Definition onModelChange (selected : string) : Op unit :=
  do st <- get;
  ensureActiveSession be
    {| c_modelAlias := Some selected; c_useRag := Some (useRag st);
       c_ragCorpusIds := Some (ragCorpusIds st); c_useStream := Some (useStream st) |}.

(** [toggleRag] of [ChatToolbar] *)
Definition toggleRag : Op unit :=
  do st <- get;
  ensureActiveSession be
    {| c_modelAlias := Some (modelAlias st); c_useRag := Some (negb (useRag st));
       c_ragCorpusIds := Some (ragCorpusIds st); c_useStream := Some (useStream st) |}.

(** [toggleStream] of [ChatToolbar] *)
Definition toggleStream : Op unit :=
  do st <- get;
  ensureActiveSession be
    {| c_modelAlias := Some (modelAlias st); c_useRag := Some (useRag st);
       c_ragCorpusIds := Some (ragCorpusIds st); c_useStream := Some (negb (useStream st)) |}.

(** [newChat] of [SidebarSessions] *)
Definition newChat : Op unit :=
  do st <- get;
  ensureActiveSession be
    {| c_modelAlias := Some (modelAlias st); c_useRag := Some (useRag st);
       c_ragCorpusIds := Some (ragCorpusIds st); c_useStream := Some (useStream st) |}.

End WithBackend.

End Components.

(** ** The event-source stream of [web/app/api/chat.js] *)

Module EventSourceStream.

(** The callbacks handed to [stream]. *)
Inductive Callback :=
| OnChunk (data : string)
| OnEnd
| OnError.

(** What reaches the event source: a message event, an [end] event, an
    [error] event, or a call of the function that [stream] returned. *)
Inductive Event :=
| MessageEvent (data : string)
| EndEvent
| ErrorEvent
| CancelCalled.

(** One event on a source that is open or closed; a closed source
    dispatches nothing.  The handlers of [end] and [error] close it. *)
Definition step (is_open : bool) (e : Event) : bool * list Callback :=
  if is_open then
    match e with
    | MessageEvent d => (true, [OnChunk d])
    | EndEvent => (false, [OnEnd])
    | ErrorEvent => (false, [OnError])
    | CancelCalled => (false, [])
    end
  else (false, []).

Fixpoint run (is_open : bool) (es : list Event) : bool * list Callback :=
  match es with
  | [] => (is_open, [])
  | e :: es' =>
      let '(o1, c1) := step is_open e in
      let '(o2, c2) := run o1 es' in
      (o2, c1 ++ c2)
  end.

(** [stream(...)] on the events [es]. *)
Definition stream (es : list Event) : list Callback := (run true es).2.

Fixpoint well_ended (cbs : list Callback) : bool :=
  match cbs with
  | [] => true
  | OnChunk _ :: r => well_ended r
  | (OnEnd | OnError) :: r => match r with [] => true | _ :: _ => false end
  end.

End EventSourceStream.

(** ** Bodies made of event-stream frames *)

Module Frames.
Import Stream.

(** The lines of a frame, joined by line feeds. *)
Fixpoint join_lines (ls : list string) : string :=
  match ls with
  | [] => ""
  | [l] => l
  | l :: r => l +:+ LF +:+ join_lines r
  end.

(** A line of a frame: not empty, without line feed. *)
Definition is_line (l : string) : bool := JS.truthy l && negb (has_LF l).

(** A frame: at least one line. *)
Definition is_frame (ls : list string) : bool :=
  match ls with [] => false | _ :: _ => forallb is_line ls end.

(** The text of a body: each frame followed by the blank line, then an
    unterminated rest. *)
Definition body (frames : list (list string)) (partial : string) : string :=
  concat_str (map (fun ls => join_lines ls +:+ LFLF) frames) +:+ partial.

(** What the reader is to call for the frames of a closed body: per
    frame the text after [data: ] on its first line with that prefix,
    no call for a frame without such a line, [onEnd] at the sentinel or
    at the end. *)
Fixpoint read_frames (frames : list (list string)) : list Callback :=
  match frames with
  | [] => [OnEnd]
  | ls :: r =>
      match find (fun l => JS.startsWith l "data: ") ls with
      | None => read_frames r
      | Some l =>
          if String.eqb (JS.slice 6 l) "[DONE]" then [OnEnd]
          else OnChunk (JS.slice 6 l) :: read_frames r
      end
  end.

(** Does [s] end with a line feed? *)
Fixpoint ends_LF (s : string) : bool :=
  match s with
  | EmptyString => false
  | String c r =>
      match r with
      | EmptyString => Ascii.eqb c "010"%char
      | String _ _ => ends_LF r
      end
  end.

End Frames.

(** ** More sample data *)

Module Fixtures.
Import Store.

(** No session yet. *)
Definition fresh : State := Sample.state [] "" ∅.

(** Two sessions, [s1] active. *)
Definition two : State := Sample.state [Sample.session "s1"; Sample.session "s2"] "s1" ∅.

(** [idle] with streaming switched off. *)
Definition plain : State := set_useStream false Sample.idle.

(** [n] messages of session [sid] with the ids [1 .. n]. *)
Definition numbered_messages (sid : string) (n : nat) : list Message :=
  map (fun k => Sample.message (Z.of_nat (S k)) sid user "m") (seq 0 n).

(** The cache of the active session [s1] is at the message quota. *)
Definition full_cache : State :=
  Sample.state [Sample.session "s1"] "s1" {[ "s1" := numbered_messages "s1" 1000 ]}.

(** The session that [Sample.backend_up] returns for a patch of [s1]
    with [Sample.config "m2"]. *)
Definition patched : Session :=
  {| id := "s1"; model_alias := "m2"; use_rag := false;
     rag_corpus_ids := Some []; meta_stream := Some true; title := "" |}.

(** A text of 4001 letters. *)
Fixpoint letters (n : nat) : string :=
  match n with
  | O => ""
  | S k => String "x" (letters k)
  end.

Definition long_word : string := letters 4001.

Definition browser : Transport.Browser :=
  {| Transport.localStorage_token := None; Transport.location_hash := "#/chat" |}.

(** A keep-alive comment, a frame with an event line, a frame whose
    data line lacks the space, and the sentinel. *)
Definition frames : list (list string) :=
  [[": ping"]; ["event: message"; "data: hello"]; ["data:nospace"]; ["data: [DONE]"]].

Definition frames_chunks : list string :=
  [": ping" +:+ LF; LF +:+ "event: message" +:+ LF +:+ "data: hel";
   "lo" +:+ LFLF +:+ "data:nospace" +:+ LFLF +:+ "data: [DONE]" +:+ LFLF +:+ "da"].

(** The body of the hello / world / sentinel stream, cut in frames. *)
Definition hello_chunks : list string :=
  ["data: hel"; "lo" +:+ LF; LF +:+ "data: world" +:+ LFLF +:+ "da"; "ta: [DONE]" +:+ LFLF].

End Fixtures.

(** * Properties *)

(** ** Strings and [split] *)

Section StringFacts.

Lemma str_app_cons (c : ascii) (s t : string) :
  String c s +:+ t = String c (s +:+ t).
Proof. reflexivity. Qed.

Lemma str_app_nil_r (s : string) : s +:+ "" = s.
Proof.
  induction s as [|c s IH]; [reflexivity|].
  rewrite str_app_cons, IH. reflexivity.
Qed.

Lemma str_app_assoc (s t u : string) : (s +:+ t) +:+ u = s +:+ (t +:+ u).
Proof.
  induction s as [|c s IH]; [reflexivity|].
  rewrite !str_app_cons, IH. reflexivity.
Qed.

(** Induction that peels one code unit while looking at two. *)
Lemma string_pair_ind (P : string -> Prop) :
  P "" ->
  (forall c, P (String c "")) ->
  (forall c d r, P r -> P (String d r) -> P (String c (String d r))) ->
  forall s, P s.
Proof.
  intros H0 H1 H2 s.
  assert (H : P s /\ forall c, P (String c s)).
  { induction s as [|d r [IHr IHdr]].
    - split; [exact H0 | exact H1].
    - split; [apply IHdr | intros c; apply H2; [exact IHr | apply IHdr]]. }
  apply H.
Qed.

Example split_blank_lines :
  JS.split LFLF ("a" +:+ LFLF +:+ LF +:+ "b" +:+ LFLF +:+ LFLF) = ["a"; LF +:+ "b"; ""; ""].
Proof. reflexivity. Qed.

Example split_lines :
  JS.split LF ("event: x" +:+ LF +:+ "data: y" +:+ LF) = ["event: x"; "data: y"; ""].
Proof. reflexivity. Qed.

Example trim_blank : JS.trim ("  a b " +:+ LF) = "a b" /\ JS.trim (" " +:+ LF) = "".
Proof. split; reflexivity. Qed.

Lemma split_LFLF_nil : JS.split LFLF "" = [""].
Proof. reflexivity. Qed.

Lemma split_LFLF_one (c : ascii) : JS.split LFLF (String c "") = [String c ""].
Proof.
  unfold JS.split, LFLF. cbn [JS.split_go JS.startsWith].
  rewrite andb_false_r. reflexivity.
Qed.

Lemma split_LFLF_match (r : string) :
  JS.split LFLF (String "010" (String "010" r)) = "" :: JS.split LFLF r.
Proof. unfold JS.split, LFLF. destruct r; reflexivity. Qed.

Lemma split_LFLF_skip (c d : ascii) (r : string) :
  ~ (c = "010"%char /\ d = "010"%char) ->
  JS.split LFLF (String c (String d r)) =
  JS.push_head c (JS.split LFLF (String d r)).
Proof.
  intros Hne. unfold JS.split, LFLF.
  cbn [JS.split_go JS.startsWith].
  destruct (Ascii.eqb_spec c "010") as [->|Hc]; [|reflexivity].
  destruct (Ascii.eqb_spec d "010") as [->|Hd]; [|reflexivity].
  exfalso. apply Hne. split; reflexivity.
Qed.

Lemma split_LFLF_not_nil (s : string) : JS.split LFLF s <> [].
Proof.
  induction s as [|c|c d r IHr IHdr] using string_pair_ind.
  - discriminate.
  - rewrite split_LFLF_one. discriminate.
  - destruct (decide (c = "010"%char /\ d = "010"%char)) as [[-> ->]|Hne].
    + rewrite split_LFLF_match. discriminate.
    + rewrite split_LFLF_skip by exact Hne.
      destruct (JS.split LFLF (String d r)); discriminate.
Qed.

(** A split with a single piece returns its argument. *)
Lemma split_LFLF_single_inv (s h : string) :
  JS.split LFLF s = [h] -> h = s.
Proof.
  revert h.
  induction s as [|c|c d r IHr IHdr] using string_pair_ind; intros h.
  - intros [= <-]. reflexivity.
  - rewrite split_LFLF_one. intros [= <-]. reflexivity.
  - destruct (decide (c = "010"%char /\ d = "010"%char)) as [[-> ->]|Hne].
    + rewrite split_LFLF_match. intros [= _ Hnil].
      exfalso. exact (split_LFLF_not_nil _ Hnil).
    + rewrite split_LFLF_skip by exact Hne.
      destruct (JS.split LFLF (String d r)) as [|h' [|? ?]] eqn:E; simpl.
      * exfalso. exact (split_LFLF_not_nil _ E).
      * intros [= <-]. f_equal. apply IHdr. reflexivity.
      * discriminate.
Qed.

(** Splitting is incremental: the complete pieces of a prefix stay, and
    the scan resumes on the held remainder. *)
Lemma split_LFLF_snoc (p : string) :
  exists parts rest,
    JS.split LFLF p = parts ++ [rest] /\
    JS.split LFLF rest = [rest] /\
    forall q, JS.split LFLF (p +:+ q) = parts ++ JS.split LFLF (rest +:+ q).
Proof.
  induction p as [|c|c d r IHr IHdr] using string_pair_ind.
  - exists [], "". repeat split.
  - exists [], (String c ""). rewrite split_LFLF_one. repeat split.
  - destruct (decide (c = "010"%char /\ d = "010"%char)) as [[-> ->]|Hne].
    + destruct IHr as (parts & rest & Hs & Hrest & Hq).
      exists ("" :: parts), rest. rewrite split_LFLF_match, Hs.
      split; [reflexivity|]. split; [exact Hrest|].
      intros q. rewrite !str_app_cons, split_LFLF_match, Hq. reflexivity.
    + destruct IHdr as (parts & rest & Hs & Hrest & Hq).
      destruct parts as [|h t].
      * apply split_LFLF_single_inv in Hs as Hr. subst rest.
        exists [], (String c (String d r)).
        rewrite split_LFLF_skip by exact Hne. rewrite Hs.
        repeat split.
      * exists (String c h :: t), rest.
        rewrite split_LFLF_skip by exact Hne. rewrite Hs.
        split; [reflexivity|]. split; [exact Hrest|].
        intros q. rewrite !str_app_cons, split_LFLF_skip by exact Hne.
        rewrite <- str_app_cons, Hq. reflexivity.
Qed.

End StringFacts.

(** ** The streaming reader *)

Section StreamFacts.

Import Stream.

Lemma process_parts_app (a b : list string) :
  process_parts (a ++ b) =
  let '(c1, f1) := process_parts a in
  if f1 then (c1, true)
  else let '(c2, f2) := process_parts b in (c1 ++ c2, f2).
Proof.
  induction a as [|part a IH]; simpl.
  - destruct (process_parts b); reflexivity.
  - destruct (find _ (JS.split LF part)) as [dataLine|]; [|exact IH].
    destruct (String.eqb _ "[DONE]"); [reflexivity|].
    rewrite IH. destruct (process_parts a) as [c1 [|]]; [reflexivity|].
    destruct (process_parts b); reflexivity.
Qed.

Lemma frames_events_app (a b : list string) :
  frames_events (a ++ b) =
  let '(c1, f1) := process_parts a in
  if f1 then c1 else c1 ++ frames_events b.
Proof.
  unfold frames_events. rewrite process_parts_app.
  destruct (process_parts a) as [c1 [|]]; [reflexivity|].
  destruct (process_parts b) as [c2 [|]]; [reflexivity|].
  rewrite List.app_assoc. reflexivity.
Qed.

Lemma pop_snoc {A} (l : list A) (x : A) : JS.pop (l ++ [x]) = (Some x, l).
Proof. unfold JS.pop. rewrite last_snoc, removelast_last. reflexivity. Qed.

Lemma callbacks_app (a b : list Obs) :
  callbacks (a ++ b) = callbacks a ++ callbacks b.
Proof. unfold callbacks. apply omap_app. Qed.

Lemma callbacks_Called (cbs : list Callback) :
  callbacks (map Called cbs) = cbs.
Proof.
  induction cbs as [|cb cbs IH]; [reflexivity|].
  simpl. unfold callbacks in *. simpl. rewrite IH. reflexivity.
Qed.

(** Once the chain has settled, body deliveries are not observed. *)
Lemma run_settled_reads (chunks : list string) :
  run Settled (map ReadValue chunks ++ [ReadDone]) = (Settled, []).
Proof.
  induction chunks as [|v chunks IH]; [reflexivity|].
  simpl. rewrite IH. reflexivity.
Qed.

(** The reader on a chunked body agrees with the frames of the whole
    text: the held remainder [buf] never hides a terminator. *)
Lemma run_reading (chunks : list string) :
  forall buf parts rest,
    JS.split LFLF buf = [buf] ->
    JS.split LFLF (buf +:+ concat_str chunks) = parts ++ [rest] ->
    callbacks (run (Reading buf) (map ReadValue chunks ++ [ReadDone])).2 =
    frames_events parts.
Proof.
  induction chunks as [|v chunks IH]; intros buf parts rest Hbuf Hsplit.
  - simpl in Hsplit. rewrite str_app_nil_r, Hbuf in Hsplit.
    destruct parts as [|? [|? ?]]; try discriminate. reflexivity.
  - simpl in Hsplit. rewrite <- str_app_assoc in Hsplit.
    destruct (split_LFLF_snoc (buf +:+ v)) as (parts1 & buf' & Hs1 & Hbuf' & Hq).
    rewrite Hq in Hsplit.
    destruct (split_LFLF_snoc (buf' +:+ concat_str chunks))
      as (parts2 & rest2 & Hs2 & _ & _).
    rewrite Hs2, List.app_assoc in Hsplit.
    apply app_inj_tail in Hsplit as [<- _].
    rewrite frames_events_app.
    cbn [map app run step]. unfold on_value.
    rewrite Hs1, pop_snoc. change (default "" (Some buf')) with buf'.
    destruct (process_parts parts1) as [cbs [|]].
    + rewrite run_settled_reads. cbn [snd]. rewrite List.app_nil_r.
      apply callbacks_Called.
    + specialize (IH buf' parts2 rest2 Hbuf' Hs2).
      destruct (run (Reading buf') _) as [p2 o2]. cbn [snd] in *.
      rewrite callbacks_app, callbacks_Called, IH. reflexivity.
Qed.

(** Chunking is not observable: the callbacks are those of the complete
    frames of the concatenated text. *)
Lemma streamMessage_frames (chunks parts : list string) (rest : string) :
  JS.split LFLF (concat_str chunks) = parts ++ [rest] ->
  streamMessage chunks = frames_events parts.
Proof.
  intros Hsplit. unfold streamMessage, body_events.
  cbn [run step]. 
  pose proof (run_reading chunks "" parts rest eq_refl Hsplit) as H.
  destruct (run (Reading "") _) as [p2 o2]. exact H.
Qed.

Lemma split_LF_plain (s : string) :
  has_LF s = false -> JS.split LF s = [s].
Proof.
  unfold JS.split, LF. induction s as [|c s IH]; [reflexivity|].
  cbn [has_LF JS.split_go JS.startsWith].
  intros [Hc Hs]%orb_false_elim. rewrite Hc. cbn [andb].
  rewrite (IH Hs). reflexivity.
Qed.

Lemma split_LFLF_plain (s : string) :
  has_LFLF s = false -> JS.split LFLF s = [s].
Proof.
  induction s as [|c|c d r IHr IHdr] using string_pair_ind; intros H.
  - reflexivity.
  - apply split_LFLF_one.
  - cbn [has_LFLF] in H. apply orb_false_elim in H as [Hcd H].
    rewrite split_LFLF_skip.
    + rewrite (IHdr H). reflexivity.
    + intros [-> ->]. discriminate.
Qed.

(** A line-feed-free piece followed by a terminator is one frame. *)
Lemma split_LFLF_frame (s rest : string) :
  has_LF s = false ->
  JS.split LFLF (s +:+ LFLF +:+ rest) = s :: JS.split LFLF rest.
Proof.
  induction s as [|c s IH]; intros H.
  - apply split_LFLF_match.
  - cbn [has_LF] in H. apply orb_false_elim in H as [Hc Hs].
    rewrite str_app_cons.
    destruct (s +:+ LFLF +:+ rest) as [|d r] eqn:E.
    { destruct s; discriminate. }
    rewrite split_LFLF_skip.
    + rewrite (IH Hs). reflexivity.
    + intros [-> _]. discriminate.
Qed.

Lemma split_LFLF_frames (toks : list string) (partial : string) :
  Forall (fun t => has_LF t = false) toks ->
  has_LFLF partial = false ->
  JS.split LFLF (concat_str (map frame toks) +:+ partial) =
  map (String.append "data: ") toks ++ [partial].
Proof.
  intros Htoks Hp. induction Htoks as [|t toks Ht _ IH].
  - apply split_LFLF_plain, Hp.
  - cbn [map concat_str app]. unfold frame at 1.
    rewrite !str_app_assoc.
    rewrite <- (str_app_assoc "data: " t).
    rewrite split_LFLF_frame by exact Ht.
    rewrite IH. reflexivity.
Qed.

Lemma find_data_line (t : string) :
  find (fun l => JS.startsWith l "data: ") ["data: " +:+ t] = Some ("data: " +:+ t).
Proof. reflexivity. Qed.

Lemma slice_data_line (t : string) : JS.slice 6 ("data: " +:+ t) = t.
Proof. reflexivity. Qed.

Lemma process_data_frames (toks : list string) :
  Forall (fun t => has_LF t = false) toks ->
  frames_events (map (String.append "data: ") toks) =
  map OnChunk (before_done toks) ++ [OnEnd].
Proof.
  unfold frames_events.
  intros Htoks. induction Htoks as [|t toks Ht _ IH]; [reflexivity|].
  cbn [map process_parts before_done].
  rewrite split_LF_plain by exact Ht.
  rewrite find_data_line, slice_data_line.
  destruct (String.eqb t "[DONE]"); [reflexivity|].
  destruct (process_parts _) as [cbs [|]]; cbn [map app]; rewrite <- IH; reflexivity.
Qed.

(** C5. However the bytes of the body are cut into chunks, a body made
    of data frames (each a line-feed-free payload after the [data: ]
    prefix, closed by a blank line) followed by an unterminated rest
    yields one [onChunk] per frame, in frame order, with the payload as
    token, up to the first frame whose payload is the sentinel
    [[DONE]]; then exactly one [onEnd]; no [onError]; the unterminated
    rest and the sentinel give no token. *)
Theorem streamMessage_tokens_any_chunking
    (toks : list string) (partial : string) (chunks : list string) :
  Forall (fun t => has_LF t = false) toks ->
  has_LFLF partial = false ->
  concat_str chunks = concat_str (map frame toks) +:+ partial ->
  streamMessage chunks = map OnChunk (before_done toks) ++ [OnEnd].
Proof.
  intros Htoks Hp Hbody.
  rewrite (streamMessage_frames chunks (map (String.append "data: ") toks) partial).
  - apply process_data_frames, Htoks.
  - rewrite Hbody. apply split_LFLF_frames; assumption.
Qed.

(** The body [data: hello], [data: world], [data: [DONE]], cut inside
    frames and inside a terminator. *)
Lemma streamMessage_tokens_witness :
  streamMessage
    ["data: hel"; "lo" +:+ LF; LF +:+ "data: world" +:+ LFLF +:+ "da"; "ta: [DONE]" +:+ LFLF] =
  [OnChunk "hello"; OnChunk "world"; OnEnd].
Proof.
  apply (streamMessage_tokens_any_chunking ["hello"; "world"; "[DONE]"] "").
  - repeat constructor.
  - reflexivity.
  - reflexivity.
Defined.

Lemma run_settled (es : list Event) :
  run Settled es = (Settled, map (fun _ => AbortReturned) (List.filter is_abort es)).
Proof.
  induction es as [|e es IH]; [reflexivity|].
  destruct e; cbn [run step]; rewrite IH; reflexivity.
Qed.

(** Calling [abort] again changes no callback. *)
Lemma abort_twice (p : Phase) (es : list Event) :
  callbacks (run p (AbortCalled :: AbortCalled :: es)).2 =
  callbacks (run p (AbortCalled :: es)).2.
Proof.
  destruct p as [|buf|err|]; cbn [run step];
    destruct (run _ es) as [p2 o2]; reflexivity.
Qed.

(** C1. The code at the failing inputs.  A stream has delivered one
    token and its next read is pending; the caller calls [abort] twice;
    both calls return, and then the rejected read reaches [.catch]:
    [onError] is invoked after [abort] has returned.  When [abort] is
    called from inside the first [onChunk] of a value that holds two
    more frames, the second [onChunk] and the [onEnd] of the sentinel
    are invoked after it has returned. *)
Theorem abort_does_not_silence_callbacks :
  (run Fetching
     [FetchResolved true 200 true; ReadValue ("data: hi" +:+ LFLF);
      AbortCalled; AbortCalled; CatchRuns]).2 =
    [Called (OnChunk "hi"); AbortReturned; AbortReturned; Called (OnError AbortError)] /\
  after_abort
    (run Fetching
       [FetchResolved true 200 true; ReadValue ("data: hi" +:+ LFLF);
        AbortCalled; AbortCalled; CatchRuns]).2 = [OnError AbortError] /\
  (run Fetching
     [FetchResolved true 200 true;
      ReadValueAborting
        ("data: a" +:+ LFLF +:+ "data: b" +:+ LFLF +:+ "data: [DONE]" +:+ LFLF) 0]).2 =
    [Called (OnChunk "a"); AbortReturned; Called (OnChunk "b"); Called OnEnd] /\
  after_abort
    (run Fetching
       [FetchResolved true 200 true;
        ReadValueAborting
          ("data: a" +:+ LFLF +:+ "data: b" +:+ LFLF +:+ "data: [DONE]" +:+ LFLF) 0]).2 =
    [OnChunk "b"; OnEnd].
Proof. repeat split. Qed.

End StreamFacts.

(** ** Transport *)

Section TransportFacts.

Import Transport.

(** The interceptor of [web/app/api.js] on a 401: the credential is
    removed, the hash points to the login view, the promise rejects. *)
Lemma api_onRejected_401 (err : AxiosError) (b : Browser) :
  is_401 err = true ->
  api_onRejected err b =
  ({| localStorage_token := None; location_hash := "#/login" |}, Rejects err).
Proof. intros H. unfold api_onRejected. rewrite H. reflexivity. Qed.

(** Any other failure passes through untouched. *)
Lemma api_onRejected_other (err : AxiosError) (b : Browser) :
  is_401 err = false -> api_onRejected err b = (b, Rejects err).
Proof. intros H. unfold api_onRejected. rewrite H. reflexivity. Qed.

(** C9. The interceptor of [web/app/api/http.js] on a 401 with a stored
    credential: the hash points to the login view and the promise
    rejects, but the credential is still stored. *)
Theorem http_onRejected_401_keeps_credential :
  http_onRejected {| response_status := Some 401 |}
    {| localStorage_token := Some "tok"; location_hash := "#/chat" |} =
  ({| localStorage_token := Some "tok"; location_hash := "#/login" |},
   Rejects {| response_status := Some 401 |}).
Proof. reflexivity. Qed.

End TransportFacts.

(** ** The store *)

Section StoreFacts.

Import Store.

Variable be : Backend.

(** Runs the plumbing of an operation, leaving its tests in place. *)
Ltac run_op :=
  cbv beta iota zeta delta [bind get modify ret alert emit await throw try_catch].

Lemma switchSession_same (st : State) :
  switchSession be (activeSessionId st) st = (Ret tt, st, []).
Proof.
  unfold switchSession. run_op.
  rewrite String.eqb_refl. reflexivity.
Qed.

(** C10. Switching to the session that is already active returns at
    once: the store is unchanged (active id, message caches,
    configuration snapshot and all other fields) and no call is issued. *)
Theorem switchSession_active_noop (st : State) :
  switchSession be (activeSessionId st) st = (Ret tt, st, []) /\
  net_calls (switchSession be (activeSessionId st) st).2 = [].
Proof. rewrite switchSession_same. split; reflexivity. Qed.

Lemma createAndActivate_quota (c : Config) (st : State) :
  (QUOTA.MAX_SESSIONS <= List.length (sessions st))%nat ->
  _createAndActivate be c st = (Ret tt, st, [Alerted SessionQuota]).
Proof.
  intros H. unfold _createAndActivate. run_op.
  apply Nat.leb_le in H. rewrite H. reflexivity.
Qed.

Lemma createAndActivate_ok (c : Config) (st : State) (s : Session) :
  (List.length (sessions st) < QUOTA.MAX_SESSIONS)%nat ->
  JS.truthy (resolve_alias c st) = true ->
  createSession be (create_body c st (resolve_alias c st)) = Some s ->
  _createAndActivate be c st =
  (Ret tt, activate s st, [Net (CreateSession (create_body c st (resolve_alias c st)))]).
Proof.
  intros Hq Ha Hs. unfold _createAndActivate. run_op.
  apply Nat.leb_gt in Hq. rewrite Hq, Ha. cbn [negb].
  rewrite Hs. reflexivity.
Qed.

Lemma createAndActivate_rejected (c : Config) (st : State) :
  (List.length (sessions st) < QUOTA.MAX_SESSIONS)%nat ->
  JS.truthy (resolve_alias c st) = true ->
  createSession be (create_body c st (resolve_alias c st)) = None ->
  _createAndActivate be c st =
  (Throw (RequestFailed (CreateSession (create_body c st (resolve_alias c st)))), st,
   [Net (CreateSession (create_body c st (resolve_alias c st)))]).
Proof.
  intros Hq Ha Hs. unfold _createAndActivate. run_op.
  apply Nat.leb_gt in Hq. rewrite Hq, Ha. cbn [negb].
  rewrite Hs. reflexivity.
Qed.

Lemma createAndActivate_no_model (c : Config) (st : State) :
  (List.length (sessions st) < QUOTA.MAX_SESSIONS)%nat ->
  JS.truthy (resolve_alias c st) = false ->
  _createAndActivate be c st = (Ret tt, st, [Alerted NoModel]).
Proof.
  intros Hq Ha. unfold _createAndActivate. run_op.
  apply Nat.leb_gt in Hq. rewrite Hq, Ha. reflexivity.
Qed.

(** What [ensureActiveSession] does once some session exists and an
    active id is set. *)
Lemma ensureActiveSession_active (c : Config) (st : State) :
  sessions st <> [] ->
  JS.truthy (activeSessionId st) = true ->
  ensureActiveSession be c st =
  if (0 <? message_count st (activeSessionId st))%nat
  then _createAndActivate be c st
  else _tryPatchConfig be (activeSessionId st) c st.
Proof.
  intros Hs Ha. unfold ensureActiveSession. run_op.
  destruct (sessions st) as [|s0 ss]; [contradiction|].
  rewrite Ha.
  destruct (0 <? message_count st (activeSessionId st))%nat; cbn [negb].
  - destruct (_createAndActivate be c st) as [[[] ?] ?]; reflexivity.
  - destruct (_tryPatchConfig be (activeSessionId st) c st) as [[[] ?] ?]; reflexivity.
Qed.

Lemma write_back_active (sid : string) (upd : Session) (st : State) :
  activeSessionId (write_back sid upd st) = activeSessionId st.
Proof.
  unfold write_back.
  destruct (JS.findIndex _ (sessions st)); reflexivity.
Qed.

Lemma tryPatchConfig_patched (sid : string) (c : Config) (st : State) (upd : Session) :
  patchSession be sid (patch_body c) = Some upd ->
  _tryPatchConfig be sid c st =
  (Ret tt, write_back sid upd st, [Net (PatchSession sid (patch_body c))]).
Proof.
  intros H. unfold _tryPatchConfig. run_op. rewrite H. reflexivity.
Qed.

Lemma tryPatchConfig_rejected (sid : string) (c : Config) (st : State) :
  patchSession be sid (patch_body c) = None ->
  _tryPatchConfig be sid c st =
  let '(o, st', l) := _createAndActivate be (fallback_config c st) st in
  (o, st', Net (PatchSession sid (patch_body c)) :: l).
Proof.
  intros H. unfold _tryPatchConfig. run_op. rewrite H.
  destruct (_createAndActivate be (fallback_config c st) st) as [[[] ?] ?]; reflexivity.
Qed.

(** The creation branch throws only when the create call is rejected. *)
Lemma createAndActivate_throw (c : Config) (st : State) (e : Error) :
  (_createAndActivate be c st).1.1 = Throw e ->
  createSession be (create_body c st (resolve_alias c st)) = None /\
  e = RequestFailed (CreateSession (create_body c st (resolve_alias c st))).
Proof.
  unfold _createAndActivate. run_op.
  destruct (QUOTA.MAX_SESSIONS <=? _)%nat; [discriminate|].
  destruct (JS.truthy (resolve_alias c st)); [|discriminate]. cbn [negb].
  destruct (createSession be _); [discriminate|].
  intros [= <-]. split; reflexivity.
Qed.

(** C4. With the session count at the maximum, the creation branch
    reports [QuotaExceeded] (the session-limit alert) and returns: the
    store, hence the session set, is unchanged and no call is issued;
    so does a reconcile call that takes this branch. *)
Theorem createAndActivate_at_quota (c : Config) (st : State) :
  (QUOTA.MAX_SESSIONS <= List.length (sessions st))%nat ->
  _createAndActivate be c st = (Ret tt, st, [Alerted SessionQuota]) /\
  QuotaExceeded SessionQuota = true /\
  net_calls (_createAndActivate be c st).2 = [] /\
  sessions (_createAndActivate be c st).1.2 = sessions st /\
  (JS.truthy (activeSessionId st) = true ->
   (0 < message_count st (activeSessionId st))%nat ->
   ensureActiveSession be c st = (Ret tt, st, [Alerted SessionQuota])).
Proof.
  intros H. rewrite (createAndActivate_quota c st H).
  repeat split.
  intros Ha Hm. rewrite ensureActiveSession_active.
  - apply Nat.ltb_lt in Hm. rewrite Hm. apply createAndActivate_quota, H.
  - intros E. rewrite E in H. cbv in H. lia.
  - exact Ha.
Qed.

(** C3 (amended). When the active session has a message, the session
    count is below the maximum, a model alias is available and the
    create call succeeds with [s], a reconcile call issues exactly that
    create call, with the desired configuration as body, and activates
    [s]: [s] heads the session list, its id is the active id, the
    snapshot is its configuration and its cache is empty.  The active
    id differs from the previous one whenever the backend's id does. *)
Theorem ensureActiveSession_with_messages (c : Config) (st : State) (s : Session) :
  sessions st <> [] ->
  JS.truthy (activeSessionId st) = true ->
  (0 < message_count st (activeSessionId st))%nat ->
  (List.length (sessions st) < QUOTA.MAX_SESSIONS)%nat ->
  JS.truthy (resolve_alias c st) = true ->
  createSession be (create_body c st (resolve_alias c st)) = Some s ->
  ensureActiveSession be c st =
    (Ret tt, activate s st,
     [Net (CreateSession (create_body c st (resolve_alias c st)))]) /\
  activeSessionId (activate s st) = id s /\
  sessions (activate s st) = s :: sessions st /\
  modelAlias (activate s st) = model_alias s /\
  useRag (activate s st) = use_rag s /\
  ragCorpusIds (activate s st) = default [] (rag_corpus_ids s) /\
  useStream (activate s st) = default (useStream st) (meta_stream s) /\
  messages (activate s st) !! id s = Some [] /\
  (id s <> activeSessionId st ->
   activeSessionId (activate s st) <> activeSessionId st).
Proof.
  intros Hs Ha Hm Hq Hal Hc.
  rewrite ensureActiveSession_active by assumption.
  apply Nat.ltb_lt in Hm. rewrite Hm.
  rewrite (createAndActivate_ok c st s Hq Hal Hc).
  repeat split; try reflexivity.
  - unfold activate, setMessages. cbn. apply lookup_insert_eq.
  - intros Hne. exact Hne.
Qed.

(** C2 (amended). When the active session has no message, a reconcile
    call first issues the patch.  If the patch succeeds, the call
    returns with the same active id, the returned session written back
    and the snapshot overwritten from it.  If the patch is rejected,
    the call continues as the creation branch on the desired
    configuration completed from the snapshot: when that branch's
    create call succeeds the created session becomes active.  The call
    throws only when both the patch and the create call are rejected. *)
Theorem ensureActiveSession_empty_session (c : Config) (st : State) :
  sessions st <> [] ->
  JS.truthy (activeSessionId st) = true ->
  message_count st (activeSessionId st) = 0%nat ->
  let sid := activeSessionId st in
  let fc := fallback_config c st in
  let body := create_body fc st (resolve_alias fc st) in
  (forall upd, patchSession be sid (patch_body c) = Some upd ->
     ensureActiveSession be c st =
       (Ret tt, write_back sid upd st, [Net (PatchSession sid (patch_body c))]) /\
     activeSessionId (write_back sid upd st) = sid /\
     modelAlias (write_back sid upd st) = model_alias upd /\
     useRag (write_back sid upd st) = use_rag upd /\
     ragCorpusIds (write_back sid upd st) = default [] (rag_corpus_ids upd) /\
     useStream (write_back sid upd st) = default (useStream st) (meta_stream upd)) /\
  (patchSession be sid (patch_body c) = None ->
     ensureActiveSession be c st =
       let '(o, st', l) := _createAndActivate be fc st in
       (o, st', Net (PatchSession sid (patch_body c)) :: l)) /\
  (forall s, patchSession be sid (patch_body c) = None ->
     (List.length (sessions st) < QUOTA.MAX_SESSIONS)%nat ->
     JS.truthy (resolve_alias fc st) = true ->
     createSession be body = Some s ->
     ensureActiveSession be c st =
       (Ret tt, activate s st,
        [Net (PatchSession sid (patch_body c)); Net (CreateSession body)]) /\
     activeSessionId (activate s st) = id s) /\
  (forall e, (ensureActiveSession be c st).1.1 = Throw e ->
     patchSession be sid (patch_body c) = None /\
     createSession be body = None /\
     e = RequestFailed (CreateSession body)).
Proof.
  intros Hs Ha Hm. cbv zeta.
  pose proof (ensureActiveSession_active c st Hs Ha) as E.
  rewrite Hm in E. cbn [Nat.ltb Nat.leb] in E.
  repeat apply conj.
  - intros upd Hp. rewrite E, (tryPatchConfig_patched _ _ _ _ Hp).
    repeat split; try reflexivity;
      unfold write_back; destruct (JS.findIndex _ _); reflexivity.
  - intros Hp. rewrite E. apply tryPatchConfig_rejected, Hp.
  - intros s Hp Hq Hal Hc. rewrite E, (tryPatchConfig_rejected _ _ _ Hp).
    rewrite (createAndActivate_ok _ st s Hq Hal Hc). split; reflexivity.
  - intros e. rewrite E.
    destruct (patchSession be (activeSessionId st) (patch_body c)) as [upd|] eqn:Hp.
    + rewrite (tryPatchConfig_patched _ _ _ _ Hp). discriminate.
    + rewrite (tryPatchConfig_rejected _ _ _ Hp).
      pose proof (createAndActivate_throw (fallback_config c st) st e) as T.
      destruct (_createAndActivate be (fallback_config c st) st) as [[o st'] l].
      cbn [fst snd] in *.
      intros Ho. destruct (T Ho) as [T1 T2]. repeat split; assumption.
Qed.

Lemma sessionById_filtered (st : State) (sid : string) :
  find (fun s => String.eqb (id s) sid)
    (List.filter (fun s => negb (String.eqb (id s) sid)) (sessions st)) = None.
Proof.
  induction (sessions st) as [|s ss IH]; [reflexivity|].
  cbn [List.filter]. destruct (String.eqb (id s) sid) eqn:E; cbn [negb]; [exact IH|].
  cbn [find]. rewrite E. exact IH.
Qed.

(** C7. Whatever the remote delete call answers, [deleteSession]
    returns normally, the session list is left without any session of
    that id, and the message cache has no entry for it. *)
Theorem deleteSession_forgets (sid : string) (st : State) :
  (deleteSession be sid st).1.1 = Ret tt /\
  sessions (deleteSession be sid st).1.2 =
    List.filter (fun s => negb (String.eqb (id s) sid)) (sessions st) /\
  messages (deleteSession be sid st).1.2 = delete sid (messages st) /\
  sessionById (deleteSession be sid st).1.2 sid = None /\
  messages (deleteSession be sid st).1.2 !! sid = None.
Proof.
  assert (H : (deleteSession be sid st).1.1 = Ret tt /\
    sessions (deleteSession be sid st).1.2 =
      List.filter (fun s => negb (String.eqb (id s) sid)) (sessions st) /\
    messages (deleteSession be sid st).1.2 = delete sid (messages st)).
  { unfold deleteSession. run_op.
    destruct (deleteSession_reply be sid) as [[]|];
      (destruct (String.eqb (activeSessionId _) sid); [|repeat split]);
      (destruct (JS.truthy _); [|repeat split]);
      match goal with
      | |- context [switchSession be ?a ?s] =>
          replace (switchSession be a s) with (@Ret unit tt, s, @nil Effect)
            by (symmetry; apply (switchSession_same s))
      end; repeat split. }
  destruct H as (H1 & H2 & H3). repeat split; try assumption.
  - unfold sessionById. rewrite H2.
    apply (sessionById_filtered st sid).
  - rewrite H3. apply lookup_delete_eq.
Qed.

(** C8 (amended). An input longer than the maximum never reaches the
    network and never changes the store: [send] returns at once,
    reporting [QuotaExceeded] (the input-length alert) when the input
    has a non-blank character, and silently when it is blank. *)
Theorem send_too_long (clock : nat -> Z) (input : string) (st : State) :
  (QUOTA.MAX_INPUT_CHARS < String.length input)%nat ->
  send be clock input st =
    (Ret tt, st,
     if JS.truthy (JS.trim input) then [Alerted InputTooLong] else []) /\
  QuotaExceeded InputTooLong = true /\
  net_calls (send be clock input st).2 = [] /\
  messages (send be clock input st).1.2 = messages st.
Proof.
  intros H.
  assert (E : send be clock input st =
    (Ret tt, st, if JS.truthy (JS.trim input) then [Alerted InputTooLong] else [])).
  { unfold send.
    assert (JS.truthy input = true) as ->.
    { destruct input; [cbv in H; lia | reflexivity]. }
    cbn [negb orb].
    destruct (JS.truthy (JS.trim input)); cbn [negb]; [|reflexivity].
    apply Nat.ltb_lt in H. rewrite H. reflexivity. }
  rewrite E. repeat split.
  destruct (JS.truthy (JS.trim input)); reflexivity.
Qed.

Lemma findIndex_middle (aiMsgId : Z) (l1 l2 : list Message) (m : Message) :
  Forall (fun x => msg_id x <> aiMsgId) l1 ->
  msg_id m = aiMsgId ->
  JS.findIndex (fun x => msg_id x =? aiMsgId) (l1 ++ m :: l2) = Some (List.length l1).
Proof.
  intros H1 Hm. induction H1 as [|x l1 Hx _ IH]; cbn [app JS.findIndex List.length].
  - apply Z.eqb_eq in Hm. rewrite Hm. reflexivity.
  - apply Z.eqb_neq in Hx. rewrite Hx, IH. reflexivity.
Qed.

Lemma findIndex_absent (aiMsgId : Z) (l : list Message) :
  Forall (fun x => msg_id x <> aiMsgId) l ->
  JS.findIndex (fun x => msg_id x =? aiMsgId) l = None.
Proof.
  intros H. induction H as [|x l Hx _ IH]; [reflexivity|].
  cbn [JS.findIndex]. apply Z.eqb_neq in Hx. rewrite Hx, IH. reflexivity.
Qed.

(** A token for an entry that is in the list: the first entry with
    that id gets the accumulated text, nothing else moves. *)
Lemma onChunk_present (sid : string) (aiMsgId : Z) (acc tok : string)
    (st : State) (l1 l2 : list Message) (m : Message) :
  messages st !! sid = Some (l1 ++ m :: l2) ->
  Forall (fun x => msg_id x <> aiMsgId) l1 ->
  msg_id m = aiMsgId ->
  onChunk sid aiMsgId acc tok st =
  (Ret (acc +:+ tok),
   set_messages
     (<[sid := l1 ++ set_content_text m (acc +:+ tok) :: l2]> (messages st)) st,
   []).
Proof.
  intros Hl H1 Hm. unfold onChunk. run_op. rewrite Hl.
  rewrite (findIndex_middle aiMsgId l1 l2 m H1 Hm).
  rewrite list_lookup_middle by reflexivity.
  rewrite insert_app_r_alt by reflexivity.
  rewrite Nat.sub_diag. reflexivity.
Qed.

(** A token for an entry that is not in the list is dropped: nothing
    is inserted. *)
Lemma onChunk_absent (sid : string) (aiMsgId : Z) (acc tok : string)
    (st : State) (l : list Message) :
  messages st !! sid = Some l ->
  Forall (fun x => msg_id x <> aiMsgId) l ->
  onChunk sid aiMsgId acc tok st = (Ret (acc +:+ tok), st, []).
Proof.
  intros Hl H. unfold onChunk. run_op. rewrite Hl.
  rewrite (findIndex_absent aiMsgId l H). reflexivity.
Qed.

Lemma trim_truthy (input : string) :
  JS.truthy (JS.trim input) = true -> JS.truthy input = true.
Proof. destruct input; [discriminate | reflexivity]. Qed.

(** A valid input on a streaming store: the user entry and the empty
    assistant entry are appended, then the stream is opened. *)
Lemma send_streaming (clock : nat -> Z) (input : string) (st : State) :
  JS.truthy (JS.trim input) = true ->
  (String.length input <= QUOTA.MAX_INPUT_CHARS)%nat ->
  (message_count st (activeSessionId st) < QUOTA.MAX_MSG_PER_SESSION)%nat ->
  useStream st = true ->
  let sid := activeSessionId st in
  let userMsg :=
    {| msg_id := clock 0%nat; session_id := sid; role := user;
       content_text := input; created_at := clock 1%nat / 1000 |} in
  let aiMsg :=
    {| msg_id := clock 2%nat + 1; session_id := sid; role := assistant;
       content_text := ""; created_at := clock 3%nat / 1000 |} in
  exists st',
    send be clock input st = (Ret tt, st', [Net (StreamMessage sid input)]) /\
    messages st' !! sid =
      Some (default [] (messages st !! sid) ++ [userMsg; aiMsg]) /\
    streamer st' = Some {| stream_session := sid; stream_message := clock 2%nat + 1 |}.
Proof.
  intros Ht Hl Hm Hs. cbv zeta. unfold send.
  rewrite (trim_truthy input Ht), Ht. cbn [negb orb].
  apply Nat.ltb_ge in Hl. rewrite Hl. run_op.
  apply Nat.leb_gt in Hm. rewrite Hm.
  change (useStream (push_message _ _ st)) with (useStream st). rewrite Hs.
  cbn [negb]. eexists. split; [reflexivity|]. split; [|reflexivity].
  cbn [messages push_message set_messages set_streamer set_streaming activeSessionId].
  rewrite lookup_insert_eq. cbn [default].
  rewrite lookup_insert_eq. cbn. rewrite <- List.app_assoc. reflexivity.
Qed.

(** [stopStream] aborts the handle, if any, and marks the store idle. *)
Lemma stopStream_idle (st : State) :
  stopStream st =
  (Ret tt, set_streamer None (set_streaming false st),
   match streamer st with Some h => [Aborted h] | None => [] end).
Proof. unfold stopStream. run_op. destruct (streamer st); reflexivity. Qed.

(** The [onError] that follows the abort finds the store already idle
    and leaves it so. *)
Lemma onError_after_stopStream (st : State) :
  onError (stopStream st).1.2 = (Ret tt, (stopStream st).1.2, []).
Proof. rewrite stopStream_idle. reflexivity. Qed.

(** C6 (amended). With the entry of the streamed message in the
    session's list and no other entry of that id, the tokens [a] then
    [b] leave the list as it was except that this one entry holds
    [a] followed by [b]; a token whose id has no entry in the list is
    dropped, and no entry is inserted for it.  The entry itself is
    appended, empty, by [send] before it opens the stream. *)
Theorem onChunk_accumulates (sid : string) (aiMsgId : Z) (a b : string)
    (st : State) (l1 l2 : list Message) (m : Message) :
  messages st !! sid = Some (l1 ++ m :: l2) ->
  Forall (fun x => msg_id x <> aiMsgId) l1 ->
  Forall (fun x => msg_id x <> aiMsgId) l2 ->
  msg_id m = aiMsgId ->
  onChunks sid aiMsgId "" [a; b] st =
    (Ret (a +:+ b),
     set_messages
       (<[sid := l1 ++ set_content_text m (a +:+ b) :: l2]> (messages st)) st,
     []) /\
  List.filter (fun x => msg_id x =? aiMsgId)
    (l1 ++ set_content_text m (a +:+ b) :: l2) = [set_content_text m (a +:+ b)] /\
  (forall acc tok st0 l,
     messages st0 !! sid = Some l ->
     Forall (fun x => msg_id x <> aiMsgId) l ->
     onChunk sid aiMsgId acc tok st0 = (Ret (acc +:+ tok), st0, []) /\
     messages (onChunk sid aiMsgId acc tok st0).1.2 !! sid = Some l) /\
  (forall clock input st0,
     JS.truthy (JS.trim input) = true ->
     (String.length input <= QUOTA.MAX_INPUT_CHARS)%nat ->
     (message_count st0 (activeSessionId st0) < QUOTA.MAX_MSG_PER_SESSION)%nat ->
     useStream st0 = true ->
     exists st',
       send be clock input st0 =
         (Ret tt, st', [Net (StreamMessage (activeSessionId st0) input)]) /\
       messages st' !! activeSessionId st0 =
         Some (default [] (messages st0 !! activeSessionId st0) ++
               [ {| msg_id := clock 0%nat; session_id := activeSessionId st0;
                    role := user; content_text := input;
                    created_at := clock 1%nat / 1000 |};
                 {| msg_id := clock 2%nat + 1; session_id := activeSessionId st0;
                    role := assistant; content_text := "";
                    created_at := clock 3%nat / 1000 |} ]) /\
       streamer st' =
         Some {| stream_session := activeSessionId st0;
                 stream_message := clock 2%nat + 1 |}).
Proof.
  intros Hl H1 H2 Hm. repeat apply conj.
  - cbn [onChunks]. unfold bind at 1.
    rewrite (onChunk_present sid aiMsgId "" a st l1 l2 m Hl H1 Hm).
    unfold bind at 1.
    erewrite (onChunk_present sid aiMsgId ("" +:+ a) b _ l1 l2 (set_content_text m ("" +:+ a))).
    + unfold ret. cbn [app messages set_messages set_content_text msg_id session_id role created_at].
      rewrite insert_insert_eq. reflexivity.
    + cbn [messages set_messages]. apply lookup_insert_eq.
    + exact H1.
    + exact Hm.
  - rewrite List.filter_app. cbn [List.filter set_content_text msg_id].
    apply Z.eqb_eq in Hm. rewrite Hm.
    assert (F : forall l, Forall (fun x => msg_id x <> aiMsgId) l ->
                List.filter (fun x => msg_id x =? aiMsgId) l = []).
    { intros l H. induction H as [|x l Hx _ IH]; [reflexivity|].
      cbn [List.filter]. apply Z.eqb_neq in Hx. rewrite Hx. exact IH. }
    rewrite (F l1 H1), (F l2 H2). reflexivity.
  - intros acc tok st0 l Hl0 H0.
    rewrite (onChunk_absent sid aiMsgId acc tok st0 l Hl0 H0).
    split; [reflexivity | exact Hl0].
  - intros clock input st0 Ht Hlen Hcnt Hs.
    exact (send_streaming clock input st0 Ht Hlen Hcnt Hs).
Qed.

End StoreFacts.

(** ** Closed instances *)

Section Instances.

Import Store.

Lemma createAndActivate_at_quota_witness :
  _createAndActivate Sample.backend_up (Sample.config "m2") Sample.crowded =
  (Ret tt, Sample.crowded, [Alerted SessionQuota]).
Proof.
  refine (proj1 (createAndActivate_at_quota Sample.backend_up
                   (Sample.config "m2") Sample.crowded _)).
  apply Nat.leb_le. vm_compute. reflexivity.
Defined.

Lemma ensureActiveSession_with_messages_witness :
  ensureActiveSession Sample.backend_up (Sample.config "m2") Sample.busy =
  (Ret tt,
   activate (Sample.created (Sample.m2_body Sample.busy)) Sample.busy,
   [Net (CreateSession (Sample.m2_body Sample.busy))]).
Proof.
  refine (proj1 (ensureActiveSession_with_messages Sample.backend_up
                   (Sample.config "m2") Sample.busy
                   (Sample.created (Sample.m2_body Sample.busy)) _ _ _ _ _ _)).
  - discriminate.
  - reflexivity.
  - apply Nat.ltb_lt. vm_compute. reflexivity.
  - apply Nat.ltb_lt. vm_compute. reflexivity.
  - reflexivity.
  - reflexivity.
Defined.

(** C3 as stated fails: with the session list full, a reconcile call
    on an active session that has a message leaves the active id as it
    was, although the backend would have created a session. *)
Lemma reconcile_at_quota_keeps_active_id :
  (0 < message_count Sample.crowded (activeSessionId Sample.crowded))%nat /\
  activeSessionId
    (ensureActiveSession Sample.backend_up (Sample.config "m2") Sample.crowded).1.2 =
  activeSessionId Sample.crowded.
Proof. split; [apply Nat.ltb_lt|]; vm_compute; reflexivity. Qed.

Lemma ensureActiveSession_empty_session_witness :
  ensureActiveSession Sample.backend_no_patch (Sample.config "m2") Sample.idle =
  (Ret tt,
   activate (Sample.created (Sample.m2_body Sample.idle)) Sample.idle,
   [Net (PatchSession "s1" (patch_body (Sample.config "m2")));
    Net (CreateSession (Sample.m2_body Sample.idle))]).
Proof.
  refine (proj1 (proj1 (proj2 (proj2
            (ensureActiveSession_empty_session Sample.backend_no_patch
               (Sample.config "m2") Sample.idle _ _ _)))
            (Sample.created (Sample.m2_body Sample.idle)) _ _ _ _)).
  - discriminate.
  - reflexivity.
  - vm_compute. reflexivity.
  - reflexivity.
  - apply Nat.ltb_lt. vm_compute. reflexivity.
  - reflexivity.
  - reflexivity.
Defined.

(** C2 as stated fails: when the backend rejects the patch and then
    the create call, the reconcile call on an empty active session
    throws to its caller. *)
Lemma reconcile_throws_when_backend_down :
  message_count Sample.idle (activeSessionId Sample.idle) = 0%nat /\
  (ensureActiveSession Sample.backend_down (Sample.config "m2") Sample.idle).1.1 =
  Throw (RequestFailed (CreateSession (Sample.m2_body Sample.idle))).
Proof. split; vm_compute; reflexivity. Qed.

Lemma send_too_long_witness :
  send Sample.backend_up Sample.clock Sample.long_text Sample.idle =
  (Ret tt, Sample.idle, [Alerted InputTooLong]).
Proof.
  refine (proj1 (send_too_long Sample.backend_up Sample.clock Sample.long_text Sample.idle _)).
  apply Nat.ltb_lt. vm_compute. reflexivity.
Defined.

(** C8 as stated fails: a blank input of 4001 code units is dropped
    without the [QuotaExceeded] report. *)
Lemma send_blank_long_is_silent :
  (QUOTA.MAX_INPUT_CHARS <? String.length (Sample.spaces 4001))%nat = true /\
  alerts (send Sample.backend_up Sample.clock (Sample.spaces 4001) Sample.idle).2 = [].
Proof. split; vm_compute; reflexivity. Qed.

Lemma onChunk_accumulates_witness :
  onChunks "s1" 2 "" ["a"; "b"] Sample.streaming_state =
  (Ret "ab",
   set_messages
     (<["s1" := [Sample.message 1 "s1" user "hi"; Sample.message 2 "s1" assistant "ab"]]>
        (messages Sample.streaming_state))
     Sample.streaming_state,
   []).
Proof.
  refine (proj1 (onChunk_accumulates Sample.backend_up "s1" 2 "a" "b" Sample.streaming_state
                   [Sample.message 1 "s1" user "hi"] []
                   (Sample.message 2 "s1" assistant "") _ _ _ _)).
  - vm_compute. reflexivity.
  - repeat constructor. discriminate.
  - constructor.
  - reflexivity.
Defined.

(** C6 as stated fails: tokens for a message id that has no entry in
    the session's list insert nothing; the list stays as it was. *)
Lemma onChunk_inserts_nothing :
  messages (onChunks "s1" 2 "" ["a"; "b"] Sample.replaced_state).1.2 !! "s1" =
  Some [Sample.message 1 "s1" user "hi"].
Proof. vm_compute. reflexivity. Qed.

End Instances.

(** * Further properties *)

(** ** The streaming reader on arbitrary bodies *)

Section ReaderFacts.

Import Stream.

(** X1. Chunking is not observable on any body: the callbacks for a body
    delivered in chunks are those for the same text delivered as one
    chunk. *)
Theorem streamMessage_chunk_independent (chunks : list string) :
  streamMessage chunks = streamMessage [concat_str chunks].
Proof.
  destruct (split_LFLF_snoc (concat_str chunks)) as (parts & rest & Hs & _ & _).
  rewrite (streamMessage_frames chunks parts rest Hs).
  symmetry. apply (streamMessage_frames _ parts rest).
  cbn [concat_str]. rewrite str_app_nil_r. exact Hs.
Qed.

(** The loop body calls [onChunk] only, then [onEnd] exactly when it
    returns on the sentinel. *)
Lemma process_parts_shape (parts : list string) :
  exists toks,
    (process_parts parts).1 =
    map OnChunk toks ++ (if (process_parts parts).2 then [OnEnd] else []).
Proof.
  induction parts as [|part parts [toks IH]]; [exists []; reflexivity|].
  cbn [process_parts].
  destruct (find _ (JS.split LF part)) as [dataLine|]; [|exists toks; exact IH].
  destruct (String.eqb _ "[DONE]"); [exists []; reflexivity|].
  destruct (process_parts parts) as [cbs fin]. cbn [fst snd] in *.
  exists (JS.slice 6 dataLine :: toks). rewrite IH. reflexivity.
Qed.

Lemma well_ended_chunks (toks : list string) (tail : list Callback) :
  Delivery.well_ended (map OnChunk toks ++ tail) = Delivery.well_ended tail.
Proof. induction toks as [|t toks IH]; [reflexivity | exact IH]. Qed.

Lemma callbacks_settled (es : list Event) : callbacks (run Settled es).2 = [].
Proof.
  rewrite run_settled. cbn [snd].
  induction (List.filter is_abort es) as [|e l IH]; [reflexivity | exact IH].
Qed.

(** One step from a pending chain: tokens, and a terminal callback
    exactly when the chain settles. *)
Lemma step_shape (p : Phase) (e : Event) :
  in_flight p = true ->
  exists toks term,
    callbacks (step p e).2 = map OnChunk toks ++ term /\
    (if in_flight (step p e).1 then term = []
     else exists cb, term = [cb] /\
          match cb with OnChunk _ => False | _ => True end).
Proof.
  intros Hp.
  assert (Value : forall buf v,
            exists toks,
              (on_value buf v).2 =
                map OnChunk toks ++ (if in_flight (on_value buf v).1 then [] else [OnEnd]) /\
              ((on_value buf v).1 = Settled \/ exists b, (on_value buf v).1 = Reading b)).
  { intros buf v. unfold on_value.
    destruct (JS.pop (JS.split LFLF (buf +:+ v))) as [lst parts'].
    destruct (process_parts_shape parts') as [toks Hsh].
    destruct (process_parts parts') as [cbs [|]]; cbn [fst snd in_flight] in *;
      exists toks; (split; [exact Hsh|]); [left; reflexivity | right; eexists; reflexivity]. }
  destruct (step p e) as [p' obs] eqn:E. cbn [fst snd].
  destruct p as [|buf|err|]; [| | |discriminate].
  - destruct e as [[|] st [|]| | | | | | |]; cbn [step] in E; injection E as <- <-;
      exists [], []; split; reflexivity.
  - destruct e as [ok st body| |v|v k| | | |]; cbn [step] in E;
      try (injection E as <- <-; exists [], []; split; reflexivity).
    + destruct (Value buf v) as (toks & Hv & _).
      destruct (on_value buf v) as [p1 cbs]. cbn [fst snd] in *.
      injection E as <- <-. rewrite callbacks_Called, Hv.
      exists toks. eexists. split; [reflexivity|].
      destruct (in_flight p1); [reflexivity|].
      exists OnEnd. split; [reflexivity | exact I].
    + destruct (Value buf v) as (toks & Hv & Hp1).
      destruct (on_value buf v) as [p1 cbs]. cbn [fst snd] in *.
      assert (C : callbacks
                    (map Called (firstn (S k) cbs) ++
                     AbortReturned :: map Called (skipn (S k) cbs)) = cbs).
      { rewrite callbacks_app.
        change (callbacks (AbortReturned :: ?l)) with (callbacks l).
        rewrite !callbacks_Called. apply firstn_skipn. }
      destruct (k <? List.length cbs)%nat; injection E as <- <-.
      * rewrite C, Hv. exists toks. eexists. split; [reflexivity|].
        destruct Hp1 as [->|[b ->]]; cbn [in_flight]; [|reflexivity].
        exists OnEnd. split; [reflexivity | exact I].
      * rewrite callbacks_Called, Hv. exists toks. eexists. split; [reflexivity|].
        destruct (in_flight p1); [reflexivity|].
        exists OnEnd. split; [reflexivity | exact I].
    + injection E as <- <-. exists [], [OnEnd]. split; [reflexivity|].
      exists OnEnd. split; [reflexivity | exact I].
  - destruct e as [ok st body| | | | | | |]; cbn [step] in E; injection E as <- <-;
      try (exists [], []; split; reflexivity).
    exists [], [OnError err]. split; [reflexivity|].
    exists (OnError err). split; [reflexivity | exact I].
Qed.

(** X2. Whatever the platform delivers and whenever [abort] is called,
    a stream invokes some [onChunk]s and then at most one terminal
    callback ([onEnd] or [onError]); nothing is invoked after it. *)
Theorem stream_ends_at_most_once (es : list Event) :
  Delivery.well_ended (callbacks (run Fetching es).2) = true.
Proof.
  assert (G : forall p, in_flight p = true ->
            Delivery.well_ended (callbacks (run p es).2) = true).
  { induction es as [|e es IH]; intros p Hp; [reflexivity|].
    cbn [run].
    destruct (step_shape p e Hp) as (toks & term & Hc & Hterm).
    destruct (step p e) as [p1 o1]. cbn [fst snd] in *.
    specialize (IH p1).
    destruct (run p1 es) as [p2 o2] eqn:R. cbn [snd] in *.
    rewrite callbacks_app, Hc, <- List.app_assoc, well_ended_chunks.
    destruct (in_flight p1) eqn:F.
    - subst term. exact (IH eq_refl).
    - destruct Hterm as (cb & -> & Hcb).
      assert (p1 = Settled) as -> by (destruct p1; [discriminate.. | reflexivity]).
      pose proof (callbacks_settled es) as Hs. rewrite R in Hs. cbn [snd] in Hs.
      rewrite Hs. destruct cb; [contradiction | reflexivity..]. }
  apply G. reflexivity.
Qed.

End ReaderFacts.

(** ** The session reconciler beyond the claims *)

Section ReconcilerFacts.

Import Store.

Variable be : Backend.

Ltac run_op :=
  cbv beta iota zeta delta [bind get modify ret alert emit await throw try_catch].

(** The four ways the creation branch can go. *)
Lemma createAndActivate_cases (c : Config) (st : State) :
  let body := create_body c st (resolve_alias c st) in
  _createAndActivate be c st = (Ret tt, st, [Alerted SessionQuota]) \/
  _createAndActivate be c st = (Ret tt, st, [Alerted NoModel]) \/
  (JS.truthy (resolve_alias c st) = true /\
   (List.length (sessions st) < QUOTA.MAX_SESSIONS)%nat /\
   ((exists s, _createAndActivate be c st = (Ret tt, activate s st, [Net (CreateSession body)])) \/
    _createAndActivate be c st =
      (Throw (RequestFailed (CreateSession body)), st, [Net (CreateSession body)]))).
Proof.
  cbv zeta.
  destruct (Nat.le_gt_cases QUOTA.MAX_SESSIONS (List.length (sessions st))) as [Hq|Hq].
  { left. apply createAndActivate_quota, Hq. }
  destruct (JS.truthy (resolve_alias c st)) eqn:Ha.
  2:{ right; left. apply createAndActivate_no_model; assumption. }
  right; right. split; [reflexivity|]. split; [exact Hq|].
  destruct (createSession be (create_body c st (resolve_alias c st))) as [s|] eqn:Hc.
  - left. exists s. apply createAndActivate_ok; assumption.
  - right. apply createAndActivate_rejected; assumption.
Qed.

Lemma ensureActiveSession_unfold (c : Config) (st : State) :
  ensureActiveSession be c st =
  match sessions st with
  | [] => _createAndActivate be c st
  | _ :: _ =>
      if (0 <? message_count (Delivery.with_active st) (activeSessionId (Delivery.with_active st)))%nat
      then _createAndActivate be c (Delivery.with_active st)
      else _tryPatchConfig be (activeSessionId (Delivery.with_active st)) c (Delivery.with_active st)
  end.
Proof.
  unfold ensureActiveSession, Delivery.with_active. run_op.
  destruct (sessions st) as [|s0 ss].
  - destruct (_createAndActivate be c st) as [[[] ?] ?]; reflexivity.
  - destruct (JS.truthy (activeSessionId st));
      match goal with
      | |- context [(0 <? ?n)%nat] => destruct (0 <? n)%nat
      end; cbn [negb];
      match goal with
      | |- context [_createAndActivate be c ?s] =>
          destruct (_createAndActivate be c s) as [[[] ?] ?]
      | |- context [_tryPatchConfig be ?a c ?s] =>
          destruct (_tryPatchConfig be a c s) as [[[] ?] ?]
      end; reflexivity.
Qed.

Lemma sessionById_activate (s : Session) (st : State) :
  sessionById (activate s st) (id s) = Some s.
Proof.
  unfold sessionById, activate. cbn [sessions setMessages sync_config
    set_messages set_useStream set_ragCorpusIds set_useRag set_modelAlias
    set_activeSessionId set_sessions find].
  rewrite String.eqb_refl. reflexivity.
Qed.

Lemma currentMessages_activate (s : Session) (st : State) :
  currentMessages (activate s st) = [].
Proof.
  unfold currentMessages, activate. cbn [messages activeSessionId setMessages sync_config
    set_messages set_useStream set_ragCorpusIds set_useRag set_modelAlias
    set_activeSessionId set_sessions].
  rewrite lookup_insert_eq. reflexivity.
Qed.

(** X3. The first reconcile call on a store without sessions, with an
    alias available and a backend that creates [s], issues exactly one
    create call and leaves exactly the session [s]: it is active, found
    by [sessionById], and its message list is empty. *)
Theorem first_reconcile_creates_one (c : Config) (st : State) (s : Session) :
  sessions st = [] ->
  JS.truthy (resolve_alias c st) = true ->
  createSession be (create_body c st (resolve_alias c st)) = Some s ->
  ensureActiveSession be c st =
    (Ret tt, activate s st,
     [Net (CreateSession (create_body c st (resolve_alias c st)))]) /\
  sessions (activate s st) = [s] /\
  activeSessionId (activate s st) = id s /\
  sessionById (activate s st) (id s) = Some s /\
  currentMessages (activate s st) = [] /\
  Delivery.snapshot (activate s st) =
    (model_alias s, use_rag s, default [] (rag_corpus_ids s),
     default (useStream st) (meta_stream s)).
Proof.
  intros Hs Ha Hc. rewrite ensureActiveSession_unfold, Hs.
  rewrite (createAndActivate_ok be c st s); [|rewrite Hs; cbv; lia|exact Ha|exact Hc].
  repeat split.
  - cbn. rewrite Hs. reflexivity.
  - apply sessionById_activate.
  - apply currentMessages_activate.
Qed.

Lemma tryPatchConfig_cases (sid : string) (c : Config) (st : State) :
  (exists upd, patchSession be sid (patch_body c) = Some upd /\
     _tryPatchConfig be sid c st =
       (Ret tt, write_back sid upd st, [Net (PatchSession sid (patch_body c))])) \/
  (patchSession be sid (patch_body c) = None /\
   _tryPatchConfig be sid c st =
     let '(o, st', l) := _createAndActivate be (fallback_config c st) st in
     (o, st', Net (PatchSession sid (patch_body c)) :: l)).
Proof.
  destruct (patchSession be sid (patch_body c)) as [upd|] eqn:Hp.
  - left. exists upd. split; [reflexivity|]. apply tryPatchConfig_patched, Hp.
  - right. split; [reflexivity|]. apply tryPatchConfig_rejected, Hp.
Qed.

(** X4. A reconcile call issues at most two calls: nothing, one create,
    one patch, or a patch followed by a create; and a create call never
    carries an empty model alias. *)
Theorem reconcile_calls (c : Config) (st : State) :
  let calls := net_calls (ensureActiveSession be c st).2 in
  calls = [] \/
  (exists b, calls = [CreateSession b] /\ JS.truthy (b_model_alias b) = true) \/
  (exists sid pb, calls = [PatchSession sid pb]) \/
  (exists sid pb b, calls = [PatchSession sid pb; CreateSession b] /\
     JS.truthy (b_model_alias b) = true).
Proof.
  cbv zeta.
  assert (C : forall c0 st0,
    net_calls (_createAndActivate be c0 st0).2 = [] \/
    exists b, net_calls (_createAndActivate be c0 st0).2 = [CreateSession b] /\
              JS.truthy (b_model_alias b) = true).
  { intros c0 st0.
    destruct (createAndActivate_cases c0 st0) as [E|[E|(Ha & _ & [[s E]|E])]];
      rewrite E; [left; reflexivity | left; reflexivity | right | right];
      eexists; (split; [reflexivity | exact Ha]). }
  rewrite ensureActiveSession_unfold.
  destruct (sessions st) as [|s0 ss].
  - destruct (C c st) as [E|(b & E & Hb)]; rewrite E; [left; reflexivity|].
    right; left. exists b. split; [reflexivity | exact Hb].
  - destruct (0 <? _)%nat.
    + destruct (C c (Delivery.with_active st)) as [E|(b & E & Hb)]; rewrite E;
        [left; reflexivity|].
      right; left. exists b. split; [reflexivity | exact Hb].
    + destruct (tryPatchConfig_cases (activeSessionId (Delivery.with_active st)) c
                 (Delivery.with_active st)) as [(upd & _ & E)|(_ & E)]; rewrite E.
      * right; right; left. eexists _, _. reflexivity.
      * destruct (C (fallback_config c (Delivery.with_active st)) (Delivery.with_active st))
          as [E'|(b & E' & Hb)];
          destruct (_createAndActivate be _ (Delivery.with_active st)) as [[o st'] l];
          cbn [snd] in *;
          change (net_calls (Net ?r :: l)) with (r :: net_calls l); rewrite E'.
        -- right; right; left. eexists _, _. reflexivity.
        -- right; right; right. eexists _, _, b. split; [reflexivity | exact Hb].
Qed.

Lemma write_back_sessions (sid : string) (upd : Session) (st : State) :
  sessions (write_back sid upd st) = Delivery.replace_first sid upd (sessions st).
Proof.
  unfold write_back.
  assert (H : forall l,
    match JS.findIndex (fun s => String.eqb (id s) sid) l with
    | Some idx => <[idx := upd]> l
    | None => l
    end = Delivery.replace_first sid upd l).
  { induction l as [|x r IH]; [reflexivity|].
    cbn [JS.findIndex Delivery.replace_first].
    destruct (String.eqb (id x) sid); [reflexivity|].
    rewrite <- IH. destruct (JS.findIndex _ r); reflexivity. }
  rewrite <- H. destruct (JS.findIndex _ (sessions st)); reflexivity.
Qed.

Lemma replace_first_length (sid : string) (upd : Session) (l : list Session) :
  List.length (Delivery.replace_first sid upd l) = List.length l.
Proof.
  induction l as [|x r IH]; [reflexivity|].
  cbn [Delivery.replace_first]. destruct (String.eqb (id x) sid); cbn; congruence.
Qed.

Lemma sessions_with_active (st : State) :
  sessions (Delivery.with_active st) = sessions st.
Proof.
  unfold Delivery.with_active. destruct (sessions st) eqn:E; [exact E|].
  destruct (JS.truthy _); [exact E|]. cbn. exact E.
Qed.

(** X5. A reconcile call never removes a session and adds at most one,
    and only below the maximum: the session count afterwards is the
    count before, or one more when the count before was below
    [MAX_SESSIONS]; so a list within the quota stays within it. *)
Theorem reconcile_keeps_session_quota (c : Config) (st : State) :
  let n := List.length (sessions st) in
  let n' := List.length (sessions (ensureActiveSession be c st).1.2) in
  (n' = n \/ (n' = S n /\ (n < QUOTA.MAX_SESSIONS)%nat)) /\
  (n' <= Nat.max n QUOTA.MAX_SESSIONS)%nat.
Proof.
  cbv zeta.
  assert (C : forall c0 st0,
    let n := List.length (sessions st0) in
    let n' := List.length (sessions (_createAndActivate be c0 st0).1.2) in
    n' = n \/ (n' = S n /\ (n < QUOTA.MAX_SESSIONS)%nat)).
  { intros c0 st0. cbv zeta.
    destruct (createAndActivate_cases c0 st0) as [E|[E|(_ & Hq & [[s E]|E])]];
      rewrite E; cbn [fst snd]; [left; reflexivity..| |left; reflexivity].
    right. split; [reflexivity | exact Hq]. }
  assert (G : let n := List.length (sessions st) in
              let n' := List.length (sessions (ensureActiveSession be c st).1.2) in
              n' = n \/ (n' = S n /\ (n < QUOTA.MAX_SESSIONS)%nat)).
  { cbv zeta. rewrite ensureActiveSession_unfold.
    destruct (sessions st) as [|s0 ss] eqn:Es.
    - rewrite <- Es. apply C.
    - rewrite <- Es, <- (sessions_with_active st).
      destruct (0 <? _)%nat; [apply C|].
      destruct (tryPatchConfig_cases (activeSessionId (Delivery.with_active st)) c
                 (Delivery.with_active st)) as [(upd & _ & E)|(_ & E)]; rewrite E.
      + left. cbn [fst snd]. rewrite write_back_sessions. apply replace_first_length.
      + pose proof (C (fallback_config c (Delivery.with_active st)) (Delivery.with_active st)) as H.
        destruct (_createAndActivate be _ (Delivery.with_active st)) as [[o st'] l].
        exact H. }
  split; [exact G|].
  cbv zeta in G. unfold QUOTA.MAX_SESSIONS in *. lia.
Qed.

Lemma sessionById_replace_first (sid : string) (upd : Session) (l : list Session) (k : string) :
  find (fun s => String.eqb (id s) k) (Delivery.replace_first sid upd l) =
  if String.eqb k sid
  then match find (fun s => String.eqb (id s) sid) l with
       | Some _ => if String.eqb (id upd) sid then Some upd
                   else find (fun s => String.eqb (id s) sid)
                          (Delivery.replace_first sid upd l)
       | None => None
       end
  else if String.eqb (id upd) k
       then find (fun s => String.eqb (id s) k) (Delivery.replace_first sid upd l)
       else find (fun s => String.eqb (id s) k) l.
Proof.
  destruct (String.eqb_spec k sid) as [->|Hk].
  - induction l as [|x r IH]; [reflexivity|].
    cbn [Delivery.replace_first find].
    destruct (String.eqb (id x) sid) eqn:Ex.
    + cbn [find]. destruct (String.eqb (id upd) sid); reflexivity.
    + cbn [find]. rewrite Ex. exact IH.
  - destruct (String.eqb (id upd) k) eqn:Eu; [reflexivity|].
    induction l as [|x r IH]; [reflexivity|].
    cbn [Delivery.replace_first find].
    destruct (String.eqb_spec (id x) sid) as [Ex|Ex].
    + cbn [find]. rewrite Eu.
      destruct (String.eqb_spec (id x) k) as [Exk|_]; [congruence | reflexivity].
    + cbn [find]. destruct (String.eqb (id x) k); [reflexivity | exact IH].
Qed.

(** X6. After a patch that the backend answers with a session of the
    same id, the store holds the answer in place of the session it had
    under that id: the list keeps its length, [sessionById] gives the
    answer, every session of another id is found as before, and the
    message caches are untouched. *)
Theorem patch_replaces_session (c : Config) (st : State) (sid : string) (old upd : Session) :
  patchSession be sid (patch_body c) = Some upd ->
  id upd = sid ->
  sessionById st sid = Some old ->
  _tryPatchConfig be sid c st =
    (Ret tt, write_back sid upd st, [Net (PatchSession sid (patch_body c))]) /\
  sessionById (write_back sid upd st) sid = Some upd /\
  List.length (sessions (write_back sid upd st)) = List.length (sessions st) /\
  (forall k, k <> sid ->
     sessionById (write_back sid upd st) k = sessionById st k) /\
  messages (write_back sid upd st) = messages st.
Proof.
  intros Hp Hid Hold. split; [apply tryPatchConfig_patched, Hp|].
  unfold sessionById in *. rewrite write_back_sessions.
  repeat split.
  - rewrite sessionById_replace_first, String.eqb_refl, Hold.
    apply String.eqb_eq in Hid. rewrite Hid. reflexivity.
  - apply replace_first_length.
  - intros k Hk. rewrite sessionById_replace_first.
    apply String.eqb_neq in Hk as Hk'. rewrite Hk'.
    destruct (String.eqb_spec (id upd) k) as [E|_]; [congruence | reflexivity].
  - unfold write_back. destruct (JS.findIndex _ _); reflexivity.
Qed.

End ReconcilerFacts.

(** ** The conversation state beyond the claims *)

Section ConversationFacts.

Import Store.

Variable be : Backend.

Ltac run_op :=
  cbv beta iota zeta delta [bind get modify ret alert emit await throw try_catch].

Lemma switchSession_result (sid : string) (st : State) :
  sid <> activeSessionId st ->
  switchSession be sid st =
  (Ret tt,
   (match sessionById st sid with Some s => sync_config s | None => fun x => x end)
     (setMessages sid
        (match listMessages be sid 500 0 with
         | Some msgs => msgs
         | None => default [] (messages st !! sid)
         end)
        (set_activeSessionId sid st)),
   [Net (ListMessages sid 500 0)]).
Proof.
  intros Hne. apply String.eqb_neq in Hne.
  unfold switchSession. run_op. rewrite Hne.
  destruct (listMessages be sid 500 0) as [msgs|];
    match goal with
    | |- context [sessionById ?s sid] => change (sessionById s sid) with (sessionById st sid)
    end;
    destruct (sessionById st sid); reflexivity.
Qed.

(** X7. Switching to another session never throws and issues exactly
    one call, the fetch of that session's messages with page size 500.
    The session becomes active; its cache becomes the fetched list, or,
    when the fetch is rejected, the list it had (empty if none); every
    other cache and the session list are left as they were. *)
Theorem switchSession_other (sid : string) (st : State) :
  sid <> activeSessionId st ->
  let cache :=
    match listMessages be sid 500 0 with
    | Some msgs => msgs
    | None => default [] (messages st !! sid)
    end in
  (switchSession be sid st).1.1 = Ret tt /\
  (switchSession be sid st).2 = [Net (ListMessages sid 500 0)] /\
  activeSessionId (switchSession be sid st).1.2 = sid /\
  messages (switchSession be sid st).1.2 = <[sid := cache]> (messages st) /\
  currentMessages (switchSession be sid st).1.2 = cache /\
  sessions (switchSession be sid st).1.2 = sessions st.
Proof.
  intros Hne. cbv zeta. rewrite (switchSession_result sid st Hne). cbn [fst snd].
  unfold currentMessages.
  destruct (sessionById st sid) as [s|];
    cbn [activeSessionId messages sessions sync_config setMessages set_messages
         set_useStream set_ragCorpusIds set_useRag set_modelAlias set_activeSessionId];
    rewrite lookup_insert_eq; repeat split.
Qed.

(** X8. Switching to another session takes the configuration snapshot
    from the session of that id in the list (a missing corpus list reads
    as empty, a missing stream preference keeps the current one); when
    the list has no session of that id the snapshot is left as it was. *)
Theorem switchSession_snapshot (sid : string) (st : State) :
  sid <> activeSessionId st ->
  Delivery.snapshot (switchSession be sid st).1.2 =
  match sessionById st sid with
  | Some s =>
      (model_alias s, use_rag s, default [] (rag_corpus_ids s),
       default (useStream st) (meta_stream s))
  | None => Delivery.snapshot st
  end.
Proof.
  intros Hne. rewrite (switchSession_result sid st Hne). cbn [fst snd].
  destruct (sessionById st sid); reflexivity.
Qed.

(** The store after [deleteSession]. *)
Lemma deleteSession_result (sid : string) (st : State) :
  deleteSession be sid st =
  (Ret tt,
   (if String.eqb (activeSessionId st) sid
    then set_activeSessionId
           (match List.filter (fun s => negb (String.eqb (id s) sid)) (sessions st) with
            | s0 :: _ => id s0
            | [] => ""
            end)
    else fun x => x)
     (set_messages (delete sid (messages st))
        (set_sessions (List.filter (fun s => negb (String.eqb (id s) sid)) (sessions st)) st)),
   [Net (DeleteSession sid)]).
Proof.
  unfold deleteSession. run_op.
  destruct (deleteSession_reply be sid) as [[]|];
    change (activeSessionId (set_messages ?m (set_sessions ?l st))) with (activeSessionId st);
    (destruct (String.eqb (activeSessionId st) sid); [|reflexivity]);
    (destruct (JS.truthy _); [|reflexivity]);
    match goal with
    | |- context [switchSession be ?a ?s] =>
        replace (switchSession be a s) with (@Ret unit tt, s, @nil Effect)
          by (symmetry; apply (switchSession_same be s))
    end; reflexivity.
Qed.

(** X9. Deleting a session issues the delete call and no other call,
    also when the deleted session was the active one: then the head of
    the remaining list becomes active (no session: the empty id), its
    messages are not fetched and the configuration snapshot is not taken
    from it.  A deletion of another session keeps the active id.  The
    caches of the other sessions are untouched. *)
Theorem deleteSession_active_handover (sid : string) (st : State) :
  let rest := List.filter (fun s => negb (String.eqb (id s) sid)) (sessions st) in
  (deleteSession be sid st).2 = [Net (DeleteSession sid)] /\
  activeSessionId (deleteSession be sid st).1.2 =
    (if String.eqb (activeSessionId st) sid
     then match rest with s0 :: _ => id s0 | [] => "" end
     else activeSessionId st) /\
  Delivery.snapshot (deleteSession be sid st).1.2 = Delivery.snapshot st /\
  (forall k, k <> sid ->
     messages (deleteSession be sid st).1.2 !! k = messages st !! k).
Proof.
  cbv zeta. rewrite deleteSession_result. cbn [fst snd].
  destruct (String.eqb (activeSessionId st) sid); repeat split;
    intros k Hk; cbn [messages set_activeSessionId set_messages];
    apply lookup_delete_ne; congruence.
Qed.

Lemma send_blank (clock : nat -> Z) (input : string) (st : State) :
  JS.truthy (JS.trim input) = false ->
  send be clock input st = (Ret tt, st, []).
Proof.
  intros H. unfold send. rewrite H. cbn [negb]. rewrite orb_true_r. reflexivity.
Qed.

Lemma send_over_length (clock : nat -> Z) (input : string) (st : State) :
  JS.truthy (JS.trim input) = true ->
  (QUOTA.MAX_INPUT_CHARS < String.length input)%nat ->
  send be clock input st = (Ret tt, st, [Alerted InputTooLong]).
Proof.
  intros Ht Hl. unfold send.
  rewrite (trim_truthy input Ht), Ht. cbn [negb orb].
  apply Nat.ltb_lt in Hl. rewrite Hl. reflexivity.
Qed.

Lemma send_at_message_quota (clock : nat -> Z) (input : string) (st : State) :
  JS.truthy (JS.trim input) = true ->
  (String.length input <= QUOTA.MAX_INPUT_CHARS)%nat ->
  (QUOTA.MAX_MSG_PER_SESSION <= message_count st (activeSessionId st))%nat ->
  send be clock input st = (Ret tt, st, [Alerted MessageQuota]).
Proof.
  intros Ht Hl Hm. unfold send.
  rewrite (trim_truthy input Ht), Ht. cbn [negb orb].
  apply Nat.ltb_ge in Hl. rewrite Hl. run_op.
  apply Nat.leb_le in Hm. rewrite Hm. reflexivity.
Qed.

Lemma send_plain_result (clock : nat -> Z) (input : string) (st : State) :
  JS.truthy (JS.trim input) = true ->
  (String.length input <= QUOTA.MAX_INPUT_CHARS)%nat ->
  (message_count st (activeSessionId st) < QUOTA.MAX_MSG_PER_SESSION)%nat ->
  useStream st = false ->
  let sid := activeSessionId st in
  let st1 := push_message sid (Delivery.userMsg clock sid input) st in
  send be clock input st =
  match sendMessage be sid input with
  | Some ans => (Ret tt, push_message sid ans st1, [Net (SendMessage sid input)])
  | None => (Ret tt, st1, [Net (SendMessage sid input); Alerted SendFailed])
  end.
Proof.
  intros Ht Hl Hm Hs. cbv zeta. unfold send.
  rewrite (trim_truthy input Ht), Ht. cbn [negb orb].
  apply Nat.ltb_ge in Hl. rewrite Hl. run_op.
  apply Nat.leb_gt in Hm. rewrite Hm.
  change (useStream (push_message _ _ st)) with (useStream st). rewrite Hs.
  cbn [negb]. destruct (sendMessage be (activeSessionId st) input); reflexivity.
Qed.

Lemma send_streaming_result (clock : nat -> Z) (input : string) (st : State) :
  JS.truthy (JS.trim input) = true ->
  (String.length input <= QUOTA.MAX_INPUT_CHARS)%nat ->
  (message_count st (activeSessionId st) < QUOTA.MAX_MSG_PER_SESSION)%nat ->
  useStream st = true ->
  let sid := activeSessionId st in
  send be clock input st =
  (Ret tt,
   set_streamer (Some {| stream_session := sid; stream_message := clock 2%nat + 1 |})
     (push_message sid (Delivery.aiMsg clock sid)
        (set_streaming true
           (push_message sid (Delivery.userMsg clock sid input) st))),
   [Net (StreamMessage sid input)]).
Proof.
  intros Ht Hl Hm Hs. cbv zeta. unfold send.
  rewrite (trim_truthy input Ht), Ht. cbn [negb orb].
  apply Nat.ltb_ge in Hl. rewrite Hl. run_op.
  apply Nat.leb_gt in Hm. rewrite Hm.
  change (useStream (push_message _ _ st)) with (useStream st). rewrite Hs.
  reflexivity.
Qed.

Lemma message_count_push (sid : string) (m : Message) (st : State) :
  message_count (push_message sid m st) sid = S (message_count st sid).
Proof.
  unfold message_count, push_message. cbn [messages set_messages].
  rewrite lookup_insert_eq.
  change (default [] (Some ?x)) with x.
  rewrite length_app. cbn [List.length]. lia.
Qed.

Lemma messages_push (sid : string) (m : Message) (st : State) :
  messages (push_message sid m st) !! sid =
  Some (default [] (messages st !! sid) ++ [m]).
Proof. unfold push_message. cbn [messages set_messages]. apply lookup_insert_eq. Qed.

Lemma messages_push_other (sid k : string) (m : Message) (st : State) :
  k <> sid -> messages (push_message sid m st) !! k = messages st !! k.
Proof.
  intros H. unfold push_message. cbn [messages set_messages].
  apply lookup_insert_ne. congruence.
Qed.

(** X10. With the active session's list at the message quota, a
    non-blank input within the length limit is rejected locally: [send]
    reports [QuotaExceeded] (the message-limit alert) and returns with
    the store unchanged and no call issued. *)
Theorem send_message_quota (clock : nat -> Z) (input : string) (st : State) :
  JS.truthy (JS.trim input) = true ->
  (String.length input <= QUOTA.MAX_INPUT_CHARS)%nat ->
  (QUOTA.MAX_MSG_PER_SESSION <= message_count st (activeSessionId st))%nat ->
  send be clock input st = (Ret tt, st, [Alerted MessageQuota]) /\
  QuotaExceeded MessageQuota = true /\
  net_calls (send be clock input st).2 = [].
Proof.
  intros Ht Hl Hm. rewrite (send_at_message_quota clock input st Ht Hl Hm).
  repeat split.
Qed.

(** X11. With streaming off, a valid input is appended to the active
    session's list as a user entry and one send call is issued.  If the
    call succeeds the answer is appended after it; if it is rejected
    [send] alerts and still returns normally, and the user entry stays
    in the list. *)
Theorem send_without_streaming (clock : nat -> Z) (input : string) (st : State) :
  JS.truthy (JS.trim input) = true ->
  (String.length input <= QUOTA.MAX_INPUT_CHARS)%nat ->
  (message_count st (activeSessionId st) < QUOTA.MAX_MSG_PER_SESSION)%nat ->
  useStream st = false ->
  let sid := activeSessionId st in
  let old := default [] (messages st !! sid) in
  let r := send be clock input st in
  r.1.1 = Ret tt /\
  net_calls r.2 = [SendMessage sid input] /\
  streaming r.1.2 = streaming st /\
  match sendMessage be sid input with
  | Some ans =>
      messages r.1.2 !! sid = Some (old ++ [Delivery.userMsg clock sid input; ans]) /\
      alerts r.2 = []
  | None =>
      messages r.1.2 !! sid = Some (old ++ [Delivery.userMsg clock sid input]) /\
      alerts r.2 = [SendFailed]
  end.
Proof.
  intros Ht Hl Hm Hs. cbv zeta.
  rewrite (send_plain_result clock input st Ht Hl Hm Hs).
  destruct (sendMessage be (activeSessionId st) input) as [ans|]; cbn [fst snd];
    repeat split; rewrite !messages_push;
    change (default [] (Some ?x)) with x; rewrite <- ?List.app_assoc; reflexivity.
Qed.

(** The six ways [send] can go. *)
Lemma send_cases (clock : nat -> Z) (input : string) (st : State) :
  let sid := activeSessionId st in
  let st1 := push_message sid (Delivery.userMsg clock sid input) st in
  (exists l, send be clock input st = (Ret tt, st, l)) \/
  ((message_count st sid < QUOTA.MAX_MSG_PER_SESSION)%nat /\
   ((exists l, send be clock input st = (Ret tt, st1, l)) \/
    (exists ans l, send be clock input st = (Ret tt, push_message sid ans st1, l)) \/
    (exists h l, send be clock input st =
       (Ret tt,
        set_streamer h (push_message sid (Delivery.aiMsg clock sid) (set_streaming true st1)),
        l)))).
Proof.
  cbv zeta.
  destruct (JS.truthy (JS.trim input)) eqn:Ht.
  2:{ left. eexists. apply send_blank, Ht. }
  destruct (Nat.le_gt_cases (String.length input) QUOTA.MAX_INPUT_CHARS) as [Hl|Hl].
  2:{ left. eexists. apply send_over_length; assumption. }
  destruct (Nat.le_gt_cases QUOTA.MAX_MSG_PER_SESSION (message_count st (activeSessionId st)))
    as [Hm|Hm].
  { left. eexists. apply send_at_message_quota; assumption. }
  right. split; [exact Hm|].
  destruct (useStream st) eqn:Hs.
  - right; right. eexists _, _. apply send_streaming_result; assumption.
  - rewrite (send_plain_result clock input st Ht Hl Hm Hs).
    destruct (sendMessage be (activeSessionId st) input) as [ans|].
    + right; left. eexists _, _. reflexivity.
    + left. eexists. reflexivity.
Qed.

(** X12. [send] never throws, whatever the input and the backend.  It
    leaves the session list, the active id, the configuration snapshot
    and the cache of every other session as they were, and it appends
    at most two entries to the active session's list, none when the
    list is at the quota: a list of at most [MAX_MSG_PER_SESSION + 1]
    entries stays so. *)
Theorem send_frame (clock : nat -> Z) (input : string) (st : State) :
  let sid := activeSessionId st in
  let r := send be clock input st in
  r.1.1 = Ret tt /\
  sessions r.1.2 = sessions st /\
  activeSessionId r.1.2 = sid /\
  Delivery.snapshot r.1.2 = Delivery.snapshot st /\
  (forall k, k <> sid -> messages r.1.2 !! k = messages st !! k) /\
  (message_count st sid <= message_count r.1.2 sid <= message_count st sid + 2)%nat /\
  (message_count r.1.2 sid <=
   Nat.max (message_count st sid) (QUOTA.MAX_MSG_PER_SESSION + 1))%nat.
Proof.
  cbv zeta.
  pose proof (message_count_push (activeSessionId st)) as P.
  pose proof (messages_push_other (activeSessionId st)) as O.
  destruct (send_cases clock input st)
    as [[l E]|(Hm & [[l E]|[(ans & l & E)|(h & l & E)]])];
    rewrite E; cbn [fst snd]; unfold QUOTA.MAX_MSG_PER_SESSION in *.
  - repeat split; lia.
  - repeat split; [intros k Hk; apply O, Hk | rewrite P; lia..].
  - repeat split; [intros k Hk; rewrite !O by exact Hk; reflexivity | rewrite !P; lia..].
  - change (message_count (set_streamer ?a ?s) ?k) with (message_count s k).
    change (messages (set_streamer ?a ?s)) with (messages s).
    rewrite P.
    change (message_count (set_streaming ?a ?s) ?k) with (message_count s k).
    rewrite P.
    repeat split; [|lia..].
    intros k Hk. rewrite O by exact Hk.
    change (messages (set_streaming ?a ?s)) with (messages s). apply O, Hk.
Qed.

End ConversationFacts.

(** ** Streaming into the store *)

Section StreamingFacts.

Import Store.

Variable be : Backend.

Ltac run_op :=
  cbv beta iota zeta delta [bind get modify ret alert emit await throw try_catch].

(** A run of tokens on an entry that is in the list. *)
Lemma onChunks_run (sid : string) (aiMsgId : Z) (toks : list string) :
  forall (acc tok : string) (st : State) (l1 l2 : list Message) (m : Message),
  messages st !! sid = Some (l1 ++ m :: l2) ->
  Forall (fun x => msg_id x <> aiMsgId) l1 ->
  msg_id m = aiMsgId ->
  onChunks sid aiMsgId acc (tok :: toks) st =
  (Ret (acc +:+ Stream.concat_str (tok :: toks)),
   set_messages
     (<[sid := l1 ++ set_content_text m (acc +:+ Stream.concat_str (tok :: toks)) :: l2]>
        (messages st)) st,
   []).
Proof.
  induction toks as [|t2 toks IH]; intros acc tok st l1 l2 m Hl H1 Hm.
  - cbn [onChunks Stream.concat_str]. unfold bind.
    rewrite (onChunk_present sid aiMsgId acc tok st l1 l2 m Hl H1 Hm).
    rewrite str_app_nil_r. reflexivity.
  - change (onChunks sid aiMsgId acc (tok :: t2 :: toks))
      with (bind (onChunk sid aiMsgId acc tok)
              (fun acc' => onChunks sid aiMsgId acc' (t2 :: toks))).
    unfold bind.
    rewrite (onChunk_present sid aiMsgId acc tok st l1 l2 m Hl H1 Hm).
    erewrite (IH (acc +:+ tok) t2 _ l1 l2 (set_content_text m (acc +:+ tok))).
    + cbn [messages set_messages set_content_text msg_id session_id role created_at app].
      rewrite insert_insert_eq.
      change (Stream.concat_str (tok :: t2 :: toks))
        with (tok +:+ Stream.concat_str (t2 :: toks)).
      rewrite <- str_app_assoc. reflexivity.
    + cbn [messages set_messages]. apply lookup_insert_eq.
    + exact H1.
    + exact Hm.
Qed.

(** X13. With the entry of the streamed message in the session's list,
    any run of tokens leaves that entry holding the accumulator followed
    by all the tokens in order; the rest of the list and the caches of
    the other sessions are as before, nothing is thrown and no call is
    issued. *)
Theorem onChunks_concat (sid : string) (aiMsgId : Z) (acc tok : string)
    (toks : list string) (st : State) (l1 l2 : list Message) (m : Message) :
  messages st !! sid = Some (l1 ++ m :: l2) ->
  Forall (fun x => msg_id x <> aiMsgId) l1 ->
  msg_id m = aiMsgId ->
  let text := acc +:+ Stream.concat_str (tok :: toks) in
  let r := onChunks sid aiMsgId acc (tok :: toks) st in
  r.1.1 = Ret text /\
  r.2 = [] /\
  messages r.1.2 !! sid = Some (l1 ++ set_content_text m text :: l2) /\
  (forall k, k <> sid -> messages r.1.2 !! k = messages st !! k).
Proof.
  intros Hl H1 Hm. cbv zeta.
  rewrite (onChunks_run sid aiMsgId toks acc tok st l1 l2 m Hl H1 Hm). cbn [fst snd].
  repeat split.
  - cbn [messages set_messages]. apply lookup_insert_eq.
  - intros k Hk. cbn [messages set_messages]. apply lookup_insert_ne. congruence.
Qed.

(** Delivering tokens is running [onChunk] on them. *)
Lemma deliver_go_chunks (sid : string) (aiMsgId : Z) (toks : list string)
    (rest : list Stream.Callback) :
  forall (acc acc' : string) (st st' : State),
  onChunks sid aiMsgId acc toks st = (Ret acc', st', []) ->
  Delivery.deliver_go sid aiMsgId acc (map Stream.OnChunk toks ++ rest) st =
  Delivery.deliver_go sid aiMsgId acc' rest st'.
Proof.
  induction toks as [|t toks IH]; intros acc acc' st st' H.
  - cbn in H. injection H as <- <-. reflexivity.
  - cbn [onChunks map app Delivery.deliver_go] in *. unfold bind in *.
    destruct (onChunk sid aiMsgId acc t st) as [[[a1|e] s1] l1]; [|discriminate].
    destruct (onChunks sid aiMsgId a1 toks s1) as [[o2 s2] l2] eqn:E2.
    injection H as -> -> Hl.
    apply app_eq_nil in Hl as [-> ->].
    rewrite (IH a1 acc' s1 st' E2).
    destruct (Delivery.deliver_go sid aiMsgId acc' rest st') as [[o s] l]. reflexivity.
Qed.

(** X14. From [send] to the end of the stream: after a valid input on a
    streaming store, a response body of data frames, however chunked,
    delivered to the closures of [send], leaves the session's list as
    it was before [send] plus the user entry and one assistant entry
    that holds the payloads before the sentinel in order; the store is
    idle again and delivery issues no call. *)
Theorem stream_round_trip (clock : nat -> Z) (input : string) (st : State)
    (toks : list string) (partial : string) (chunks : list string) :
  JS.truthy (JS.trim input) = true ->
  (String.length input <= QUOTA.MAX_INPUT_CHARS)%nat ->
  (message_count st (activeSessionId st) < QUOTA.MAX_MSG_PER_SESSION)%nat ->
  useStream st = true ->
  Forall (fun x => msg_id x <> clock 2%nat + 1) (default [] (messages st !! activeSessionId st)) ->
  clock 0%nat <> clock 2%nat + 1 ->
  Forall (fun t => Stream.has_LF t = false) toks ->
  Stream.has_LFLF partial = false ->
  Stream.concat_str chunks = Stream.concat_str (map Stream.frame toks) +:+ partial ->
  let sid := activeSessionId st in
  let r :=
    Delivery.deliver sid (clock 2%nat + 1) (Stream.streamMessage chunks)
      (send be clock input st).1.2 in
  r.1.1 = Ret tt /\
  r.2 = [] /\
  messages r.1.2 !! sid =
    Some (default [] (messages st !! sid) ++
          [Delivery.userMsg clock sid input;
           set_content_text (Delivery.aiMsg clock sid)
             (Stream.concat_str (Stream.before_done toks))]) /\
  streaming r.1.2 = false /\
  streamer r.1.2 = None.
Proof.
  intros Ht Hl Hm Hs Hold Hclk Htoks Hp Hbody. cbv zeta.
  rewrite (streamMessage_frames chunks (map (String.append "data: ") toks) partial)
    by (rewrite Hbody; apply split_LFLF_frames; assumption).
  rewrite (process_data_frames toks Htoks).
  rewrite (send_streaming_result be clock input st Ht Hl Hm Hs). cbn [fst snd].
  set (sid := activeSessionId st).
  set (old := default [] (messages st !! sid)).
  set (st1 := set_streamer _ _).
  assert (L : messages st1 !! sid =
              Some ((old ++ [Delivery.userMsg clock sid input]) ++ Delivery.aiMsg clock sid :: [])).
  { subst st1. cbn [messages set_streamer]. rewrite messages_push.
    change (messages (set_streaming true ?s)) with (messages s).
    rewrite messages_push. reflexivity. }
  assert (F : Forall (fun x => msg_id x <> clock 2%nat + 1)
                (old ++ [Delivery.userMsg clock sid input])).
  { apply Forall_app. split; [exact Hold|]. constructor; [exact Hclk | constructor]. }
  unfold Delivery.deliver, try_catch.
  destruct (Stream.before_done toks) as [|tok ts].
  - cbn [map app Delivery.deliver_go]. unfold bind, onEnd, modify, ret. cbn [fst snd].
    repeat split. cbn [messages set_streamer set_streaming]. rewrite L.
    rewrite <- List.app_assoc. reflexivity.
  - erewrite deliver_go_chunks
      by (apply (onChunks_run sid (clock 2%nat + 1) ts "" tok st1 _ [] _ L F); reflexivity).
    cbn [Delivery.deliver_go]. unfold bind, onEnd, modify, ret. cbn [fst snd].
    repeat split. cbn [messages set_streamer set_streaming set_messages].
    rewrite lookup_insert_eq, <- List.app_assoc. reflexivity.
Qed.

(** X15. [stopStream] aborts the running stream once and marks the
    store idle without touching the message caches; a second call
    aborts nothing and changes nothing, and so do the [onError] or
    [onEnd] of the stopped stream when they arrive afterwards. *)
Theorem stopStream_idempotent (st : State) :
  let st1 := (stopStream st).1.2 in
  (stopStream st).2 = match streamer st with Some h => [Aborted h] | None => [] end /\
  streaming st1 = false /\
  streamer st1 = None /\
  messages st1 = messages st /\
  stopStream st1 = (Ret tt, st1, []) /\
  onError st1 = (Ret tt, st1, []) /\
  onEnd st1 = (Ret tt, st1, []).
Proof.
  cbv zeta. rewrite stopStream_idle. cbn [fst snd].
  repeat split.
Qed.

(** X16. A token that arrives for a session whose cache has been
    deleted makes [onChunk] throw; the reader's [.catch] then calls
    [onError]: the delivery ends there, the store is idle, nothing is
    thrown to the caller and the deleted cache is not created again. *)
Theorem token_after_delete (sid : string) (aiMsgId : Z) (tok : string)
    (rest : list Stream.Callback) (st : State) :
  let st1 := (deleteSession be sid st).1.2 in
  Delivery.deliver sid aiMsgId (Stream.OnChunk tok :: rest) st1 =
    (Ret tt, set_streamer None (set_streaming false st1), []) /\
  messages (set_streamer None (set_streaming false st1)) !! sid = None.
Proof.
  cbv zeta. rewrite (deleteSession_result be sid st). cbn [fst snd].
  set (st1 := (if String.eqb _ _ then _ else _) _).
  assert (N : messages st1 !! sid = None).
  { subst st1. destruct (String.eqb (activeSessionId st) sid);
      cbn [messages set_activeSessionId set_messages]; apply lookup_delete_eq. }
  split; [|exact N].
  unfold Delivery.deliver, try_catch. cbn [Delivery.deliver_go].
  unfold bind at 1. unfold onChunk. run_op. rewrite N. reflexivity.
Qed.

End StreamingFacts.

(** ** Requests and the stored credential *)

Section RequestFacts.

Import Transport Requests.

Lemma or_else_empty (s : string) : Store.or_else s "" = s.
Proof. destruct s; reflexivity. Qed.

(** X17. The request interceptors of [api.js] and of [api/http.js] do
    the same to every request while the storage can be read: they set
    the header to [Bearer] followed by the stored token when that token
    is not empty, and leave the request as it is otherwise.  When the
    storage cannot be read the interceptor of [api/http.js] lets the
    request pass unchanged and the one of [api.js] throws. *)
Theorem request_interceptors_agree (b : Browser) (cfg : Headers) :
  api_onRequest false b cfg = Some (http_onRequest false b cfg) /\
  http_onRequest false b cfg =
    (match localStorage_token b with
     | Some (String c t) => {| Authorization := Some ("Bearer " +:+ String c t) |}
     | _ => cfg
     end) /\
  http_onRequest true b cfg = cfg /\
  api_onRequest true b cfg = None.
Proof.
  unfold api_onRequest, http_onRequest, getToken, getItem.
  rewrite or_else_empty.
  destruct (localStorage_token b) as [[|c t]|]; repeat split.
Qed.

(** X18. With a non-empty token stored, the header that [streamMessage]
    sends is the one the interceptors set; with no token, or an empty
    one, [streamMessage] still sends a header, [Bearer] followed by
    nothing, where the interceptors send none. *)
Theorem stream_header_vs_interceptor (b : Browser) (cfg : Headers) :
  match localStorage_token b with
  | Some (String c t) =>
      Authorization (http_onRequest false b cfg) = Some (stream_authorization b)
  | _ =>
      stream_authorization b = "Bearer " /\
      Authorization (http_onRequest false b cfg) = Authorization cfg
  end.
Proof.
  unfold http_onRequest, getToken, getItem, stream_authorization.
  rewrite or_else_empty.
  destruct (localStorage_token b) as [[|c t]|]; repeat split.
Qed.

(** X19. The credential through a session: after [setToken t] with a
    non-empty [t] the store holds [t] and requests carry [Bearer t];
    after [logout] the store holds no token, the hash is the login view
    and requests carry no header of their own.  A 401 answer through the
    interceptor of [api.js] has the same effect on later requests as
    [logout], while after a 401 through the interceptor of
    [api/http.js] later requests still carry [Bearer t]. *)
Theorem credential_life_cycle (t : string) (w : Store.State * Browser) (cfg : Headers)
    (err : AxiosError) :
  JS.truthy t = true ->
  is_401 err = true ->
  let w1 := setToken t w in
  Store.token w1.1 = t /\
  api_onRequest false w1.2 cfg = Some {| Authorization := Some ("Bearer " +:+ t) |} /\
  Store.token (logout w1).1 = "" /\
  location_hash (logout w1).2 = "#/login" /\
  api_onRequest false (logout w1).2 cfg = Some cfg /\
  api_onRequest false (api_onRejected err w1.2).1 cfg = Some cfg /\
  http_onRequest false (http_onRejected err w1.2).1 cfg =
    {| Authorization := Some ("Bearer " +:+ t) |}.
Proof.
  intros Ht He. cbv zeta.
  unfold api_onRejected, http_onRejected. rewrite He.
  unfold api_onRequest, http_onRequest, getToken, getItem, setToken, logout.
  cbn [fst snd localStorage_token location_hash Store.token set_token].
  rewrite or_else_empty.
  change (default "" (Some t)) with t. rewrite Ht. repeat split.
Qed.

End RequestFacts.

(** ** The event-source stream *)

Section EventSourceFacts.

Import EventSourceStream.

Lemma run_closed (es : list Event) : run false es = (false, []).
Proof. induction es as [|e es IH]; [reflexivity|]. cbn [run step]. rewrite IH. reflexivity. Qed.

Lemma well_ended_run (es : list Event) (o : bool) : well_ended (run o es).2 = true.
Proof.
  revert o. induction es as [|e es IH]; intros o; [reflexivity|].
  destruct o; [|rewrite run_closed; reflexivity].
  cbn [run step]. destruct e; cbn [step];
    try (rewrite run_closed; reflexivity).
  specialize (IH true). destruct (run true es) as [o2 c2]. exact IH.
Qed.

(** X20. The event-source stream of [api/chat.js] calls [onChunk] for
    each message event in order, whatever its text, until the first
    [end] or [error] event or the first call of the returned cancel
    function; it then calls at most one of [onEnd] and [onError] and
    nothing afterwards: after the cancel function has returned no
    callback is invoked at all. *)
Theorem event_source_stream_discipline (pre post : list Event) (toks : list string) :
  well_ended (stream (pre ++ post)) = true /\
  stream (pre ++ CancelCalled :: post) = stream pre /\
  stream (map MessageEvent toks ++ EndEvent :: post) = map OnChunk toks ++ [OnEnd] /\
  stream (map MessageEvent toks ++ ErrorEvent :: post) = map OnChunk toks ++ [OnError].
Proof.
  unfold stream.
  assert (M : forall tail,
    (run true (map MessageEvent toks ++ tail)).2 = map OnChunk toks ++ (run true tail).2).
  { intros tail. induction toks as [|t ts IH]; [reflexivity|].
    cbn [map app run step]. destruct (run true (map MessageEvent ts ++ tail)) as [o2 c2].
    cbn [snd] in *. rewrite IH. reflexivity. }
  repeat split.
  - apply well_ended_run.
  - assert (G : forall o, (run o (pre ++ CancelCalled :: post)).2 = (run o pre).2).
    { induction pre as [|e es IH]; intros o.
      - cbn [app run]. destruct o; cbn [step]; rewrite run_closed; reflexivity.
      - cbn [app run]. destruct (step o e) as [o1 c1].
        specialize (IH o1).
        destruct (run o1 (es ++ CancelCalled :: post)) as [o2 c2].
        destruct (run o1 es) as [o3 c3]. cbn [snd] in *. rewrite IH. reflexivity. }
    apply G.
  - rewrite M. cbn [run step]. rewrite run_closed. reflexivity.
  - rewrite M. cbn [run step]. rewrite run_closed. reflexivity.
Qed.

End EventSourceFacts.

(** ** The markdown of the message list *)

Section MarkdownFacts.

Import Markdown.

Lemma all_chars_app (P : ascii -> bool) (a b : string) :
  all_chars P (a +:+ b) = all_chars P a && all_chars P b.
Proof.
  induction a as [|c a IH]; [reflexivity|].
  rewrite str_app_cons. cbn [all_chars]. rewrite IH, andb_assoc. reflexivity.
Qed.

(** Replacing [c] by text that satisfies [P] gives text that satisfies
    [P] when every other character did. *)
Lemma all_chars_replace (P Q : ascii -> bool) (c : ascii) (rep s : string) :
  all_chars Q s = true ->
  (forall d, Q d = true -> d = c \/ P d = true) ->
  all_chars P rep = true ->
  all_chars P (replace_char c rep s) = true.
Proof.
  intros Hs HQ Hrep. induction s as [|d s IH]; [reflexivity|].
  cbn [all_chars] in Hs. apply andb_prop in Hs as [Hd Hs].
  cbn [replace_char]. destruct (Ascii.eqb_spec d c) as [->|Hne].
  - rewrite all_chars_app, Hrep, (IH Hs). reflexivity.
  - cbn [all_chars]. rewrite (IH Hs).
    destruct (HQ d Hd) as [E|E]; [contradiction|]. rewrite E. reflexivity.
Qed.

Lemma all_chars_true (s : string) : all_chars (fun _ => true) s = true.
Proof. induction s as [|c s IH]; [reflexivity | exact IH]. Qed.

Lemma escape_no_angle (raw : string) : all_chars not_angle (escape raw) = true.
Proof.
  unfold escape.
  apply (all_chars_replace not_angle (fun d => negb (Ascii.eqb d "<")) ">" "&gt;").
  - apply (all_chars_replace _ (fun _ => true) "<" "&lt;").
    + apply all_chars_true.
    + intros d _. destruct (Ascii.eqb_spec d "<"); [left; assumption | right; reflexivity].
    + reflexivity.
  - intros d Hd. unfold not_angle. rewrite Hd.
    destruct (Ascii.eqb_spec d ">"); [left; assumption | right; reflexivity].
  - reflexivity.
Qed.

Lemma Safe_app (a b : string) : Safe a -> Safe b -> Safe (a +:+ b).
Proof.
  intros Ha Hb. induction Ha as [|c s Hc _ IH|t s Ht _ IH].
  - exact Hb.
  - rewrite str_app_cons. apply Safe_char; assumption.
  - rewrite str_app_assoc. apply Safe_tag; assumption.
Qed.

Lemma Safe_plain (s : string) : all_chars not_angle s = true -> Safe s.
Proof.
  induction s as [|c s IH]; intros H; [constructor|].
  cbn [all_chars] in H. apply andb_prop in H as [Hc Hs].
  apply Safe_char; [exact Hc | exact (IH Hs)].
Qed.

Lemma inline_go_safe (s : string) :
  forall inside,
    all_chars not_angle s = true ->
    all_chars not_angle (default "" inside) = true ->
    Safe (inline_go inside s).
Proof.
  induction s as [|c s IH]; intros inside Hs Hin.
  - destruct inside as [acc|]; [|constructor].
    cbn [inline_go]. apply Safe_char; [reflexivity | apply Safe_plain, Hin].
  - cbn [all_chars] in Hs. apply andb_prop in Hs as [Hc Hs].
    cbn [inline_go]. destruct inside as [acc|].
    + destruct (Ascii.eqb c "`").
      * destruct acc as [|a acc'].
        -- apply Safe_char; [reflexivity | apply IH; [exact Hs | reflexivity]].
        -- apply (Safe_tag "<code>"); [left; reflexivity|].
           apply Safe_app; [apply Safe_plain, Hin|].
           apply (Safe_tag "</code>"); [right; left; reflexivity|].
           apply IH; [exact Hs | reflexivity].
      * apply IH; [exact Hs|].
        change (default "" (Some ?x)) with x in *.
        rewrite all_chars_app, Hin. cbn [all_chars]. rewrite Hc. reflexivity.
    + destruct (Ascii.eqb c "`").
      * apply IH; [exact Hs | reflexivity].
      * apply Safe_char; [exact Hc | apply IH; [exact Hs | reflexivity]].
Qed.

Lemma replace_char_app (c : ascii) (rep a b : string) :
  replace_char c rep (a +:+ b) = replace_char c rep a +:+ replace_char c rep b.
Proof.
  induction a as [|d a IH]; [reflexivity|].
  rewrite str_app_cons. cbn [replace_char].
  destruct (Ascii.eqb d c); rewrite IH; [rewrite str_app_assoc|]; reflexivity.
Qed.

Lemma Safe_breaks (s : string) : Safe s -> Safe (replace_char "010" "<br/>" s).
Proof.
  intros H. induction H as [|c s Hc _ IH|t s Ht _ IH].
  - constructor.
  - cbn [replace_char]. destruct (Ascii.eqb c "010").
    + apply (Safe_tag "<br/>"); [right; right; left; reflexivity | exact IH].
    + apply Safe_char; assumption.
  - rewrite replace_char_app.
    assert (E : replace_char "010" "<br/>" t = t).
    { destruct Ht as [<-|[<-|[<-|[]]]]; reflexivity. }
    rewrite E. apply Safe_tag; assumption.
Qed.

Lemma replace_char_no_LF (rep s : string) :
  Stream.has_LF rep = false ->
  Stream.has_LF (replace_char "010" rep s) = false.
Proof.
  intros Hrep. induction s as [|d s IH]; [reflexivity|].
  cbn [replace_char]. destruct (Ascii.eqb d "010") eqn:E.
  - assert (A : forall a b, Stream.has_LF (a +:+ b) = Stream.has_LF a || Stream.has_LF b).
    { intros a b. induction a as [|x a IHa]; [reflexivity|].
      rewrite str_app_cons. cbn [Stream.has_LF]. rewrite IHa, orb_assoc. reflexivity. }
    rewrite A, Hrep, IH. reflexivity.
  - cbn [Stream.has_LF]. rewrite E, IH. reflexivity.
Qed.

Lemma replace_char_absent (c : ascii) (rep s : string) :
  all_chars (fun d => negb (Ascii.eqb d c)) s = true ->
  replace_char c rep s = s.
Proof.
  induction s as [|d s IH]; intros H; [reflexivity|].
  cbn [all_chars] in H. apply andb_prop in H as [Hd Hs].
  cbn [replace_char]. apply negb_true_iff in Hd. rewrite Hd, (IH Hs). reflexivity.
Qed.

Lemma inline_absent (s : string) :
  all_chars (fun d => negb (Ascii.eqb d "`")) s = true ->
  inline_go None s = s.
Proof.
  induction s as [|d s IH]; intros H; [reflexivity|].
  cbn [all_chars] in H. apply andb_prop in H as [Hd Hs].
  cbn [inline_go]. apply negb_true_iff in Hd. rewrite Hd, (IH Hs). reflexivity.
Qed.

Lemma all_chars_weaken (P Q : ascii -> bool) (s : string) :
  (forall c, P c = true -> Q c = true) ->
  all_chars P s = true -> all_chars Q s = true.
Proof.
  intros HPQ. induction s as [|c s IH]; [reflexivity|].
  cbn [all_chars]. intros [Hc Hs]%andb_prop.
  rewrite (HPQ c Hc), (IH Hs). reflexivity.
Qed.

(** X21. Whatever the text of a message, the markup that [md] returns
    is made of characters other than angle brackets and of the three
    tags that [md] writes itself, so no angle bracket of the text
    reaches the page; and it holds no line feed: every line feed of the
    text has become a break tag. *)
Theorem md_escapes_markup (raw : string) :
  Safe (md raw) /\ Stream.has_LF (md raw) = false.
Proof.
  unfold md. destruct (negb (JS.truthy raw)); [split; [constructor | reflexivity]|].
  split.
  - apply Safe_breaks. unfold inline.
    apply inline_go_safe; [apply escape_no_angle | reflexivity].
  - apply replace_char_no_LF. reflexivity.
Qed.

(** X22. On a text without ampersand, angle bracket, backquote and line
    feed, [md] is the identity. *)
Theorem md_plain_text (raw : string) :
  all_chars (fun c => negb (is_special c)) raw = true -> md raw = raw.
Proof.
  intros H. unfold md. destruct raw as [|c raw]; [reflexivity|].
  cbn [JS.truthy negb]. unfold inline, escape.
  assert (W : forall x, all_chars (fun d => negb (Ascii.eqb d x)) (String c raw) = true ->
              forall rep, replace_char x rep (String c raw) = String c raw).
  { intros x Hx rep. apply replace_char_absent, Hx. }
  assert (S : forall x, is_special x = true ->
              all_chars (fun d => negb (Ascii.eqb d x)) (String c raw) = true).
  { intros x Hx. apply (all_chars_weaken (fun c => negb (is_special c))); [|exact H].
    intros d Hd. destruct (Ascii.eqb_spec d x) as [->|_]; [|reflexivity].
    rewrite Hx in Hd. discriminate. }
  rewrite (W "&"%char (S "&"%char eq_refl)), (W "<"%char (S "<"%char eq_refl)),
    (W ">"%char (S ">"%char eq_refl)).
  rewrite (inline_absent _ (S "`"%char eq_refl)).
  apply (W "010"%char (S "010"%char eq_refl)).
Qed.

Example md_sample :
  md ("a<b & `x` `" +:+ LF +:+ "c") = "a&lt;b &amp; <code>x</code> `<br/>c".
Proof. reflexivity. Qed.

End MarkdownFacts.

(** ** The components *)

Section ComponentFacts.

Import Store Components.

Variable be : Backend.

Ltac run_op :=
  cbv beta iota zeta delta [bind get modify ret alert emit await throw try_catch].

Lemma rev_string_acc (s acc : string) :
  JS.rev_string acc s = JS.rev_string "" s +:+ acc.
Proof.
  revert acc. induction s as [|c s IH]; intros acc; [reflexivity|].
  cbn [JS.rev_string]. rewrite (IH (String c acc)), (IH (String c "")).
  rewrite str_app_assoc. reflexivity.
Qed.

Lemma rev_string_app (a b : string) :
  JS.rev_string "" (a +:+ b) = JS.rev_string "" b +:+ JS.rev_string "" a.
Proof.
  induction a as [|c a IH]; [rewrite str_app_nil_r; reflexivity|].
  rewrite str_app_cons. cbn [JS.rev_string].
  rewrite (rev_string_acc (a +:+ b)), (rev_string_acc a), IH, str_app_assoc.
  reflexivity.
Qed.

Lemma rev_string_involutive (s : string) :
  JS.rev_string "" (JS.rev_string "" s) = s.
Proof.
  induction s as [|c s IH]; [reflexivity|].
  cbn [JS.rev_string]. rewrite (rev_string_acc s (String c "")), rev_string_app, IH.
  reflexivity.
Qed.

Lemma no_lead_trimStart (s : string) : Components.no_lead (JS.trimStart s) = true.
Proof.
  induction s as [|c s IH]; [reflexivity|].
  cbn [JS.trimStart]. destruct (JS.is_white c) eqn:E; [exact IH|].
  cbn [Components.no_lead]. rewrite E. reflexivity.
Qed.

Lemma trimStart_no_lead (s : string) : Components.no_lead s = true -> JS.trimStart s = s.
Proof.
  destruct s as [|c s]; [reflexivity|]. cbn [Components.no_lead JS.trimStart].
  intros H. apply negb_true_iff in H. rewrite H. reflexivity.
Qed.

Lemma trimStart_keeps_last (x : string) (c : ascii) :
  JS.is_white c = false ->
  exists y, JS.trimStart (x +:+ String c "") = y +:+ String c "".
Proof.
  intros Hc. induction x as [|d x [y IH]].
  - exists "". cbn [JS.trimStart]. change ("" +:+ String c "") with (String c "").
    cbn [JS.trimStart]. rewrite Hc. reflexivity.
  - rewrite str_app_cons. cbn [JS.trimStart]. destruct (JS.is_white d).
    + exists y. exact IH.
    + exists (String d x). reflexivity.
Qed.

Lemma no_lead_trimEnd (t : string) :
  Components.no_lead t = true ->
  Components.no_lead (JS.rev_string "" (JS.trimStart (JS.rev_string "" t))) = true.
Proof.
  destruct t as [|c t]; [reflexivity|]. cbn [Components.no_lead]. intros Hc.
  apply negb_true_iff in Hc.
  cbn [JS.rev_string]. rewrite (rev_string_acc t (String c "")).
  destruct (trimStart_keeps_last (JS.rev_string "" t) c Hc) as [y ->].
  rewrite rev_string_app. cbn [JS.rev_string].
  change (String c "" +:+ JS.rev_string "" y) with (String c (JS.rev_string "" y)).
  cbn [Components.no_lead]. rewrite Hc. reflexivity.
Qed.

(** Trimming twice is trimming once. *)
Lemma trim_idempotent (s : string) : JS.trim (JS.trim s) = JS.trim s.
Proof.
  unfold JS.trim.
  set (t := JS.trimStart s).
  assert (Ht : Components.no_lead t = true) by apply no_lead_trimStart.
  rewrite (trimStart_no_lead _ (no_lead_trimEnd t Ht)).
  rewrite rev_string_involutive.
  rewrite (trimStart_no_lead _ (no_lead_trimStart _)). reflexivity.
Qed.

Lemma send_returns (clock : nat -> Z) (input : string) (st : State) :
  (send be clock input st).1.1 = Ret tt.
Proof.
  destruct (send_cases be clock input st)
    as [[l E]|(_ & [[l E]|[(ans & l & E)|(h & l & E)]])]; rewrite E; reflexivity.
Qed.

Lemma composer_send_result (clock : nat -> Z) (input : string) (st : State) :
  composer_send be clock input st =
  if JS.truthy (JS.trim input)
  then (Ret "", (send be clock (JS.trim input) st).1.2, (send be clock (JS.trim input) st).2)
  else (Ret input, st, []).
Proof.
  unfold composer_send. destruct (JS.truthy (JS.trim input)); [|reflexivity].
  cbn [negb]. unfold bind, ret.
  pose proof (send_returns clock (JS.trim input) st) as R.
  destruct (send be clock (JS.trim input) st) as [[o st'] l]. cbn [fst snd] in *.
  rewrite R, List.app_nil_r. reflexivity.
Qed.

(** X23. The composer hands the trimmed text to [send] and empties the
    text area whenever that text is not blank, also when [send] rejects
    it: a text whose trimmed form is longer than the limit is answered
    by the length alert, the store is unchanged, nothing is sent, and
    the text area is empty afterwards. *)
Theorem composer_clears_rejected_text (clock : nat -> Z) (input : string) (st : State) :
  JS.truthy (JS.trim input) = true ->
  (QUOTA.MAX_INPUT_CHARS < String.length (JS.trim input))%nat ->
  composer_send be clock input st = (Ret "", st, [Alerted InputTooLong]).
Proof.
  intros Ht Hl. rewrite composer_send_result, Ht.
  rewrite (send_over_length be clock (JS.trim input) st); [reflexivity| |exact Hl].
  rewrite trim_idempotent. exact Ht.
Qed.

(** X24. A blank text area is left as it is and [send] is not reached;
    a text that is not blank reaches [send] trimmed, [send] never takes
    it for blank, and the text area is emptied. *)
Theorem composer_send_trims (clock : nat -> Z) (input : string) (st : State) :
  composer_send be clock input st =
    (if JS.truthy (JS.trim input)
     then (Ret "", (send be clock (JS.trim input) st).1.2,
           (send be clock (JS.trim input) st).2)
     else (Ret input, st, [])) /\
  JS.trim (JS.trim input) = JS.trim input.
Proof. split; [apply composer_send_result | apply trim_idempotent]. Qed.

Lemma bind_get {A} (f : State -> Op A) (st : State) : bind get f st = f st st.
Proof. unfold bind, get. destruct (f st st) as [[o s] l]. reflexivity. Qed.

Lemma resolve_alias_given (a : string) (c : Config) (st : State) :
  c_modelAlias c = Some a -> JS.truthy a = true -> resolve_alias c st = a.
Proof.
  intros E Ha. unfold resolve_alias, or_else. rewrite E.
  change (default "" (Some a)) with a. rewrite Ha. reflexivity.
Qed.

(** X25. "New chat" on an active session without messages creates
    nothing when the backend accepts the patch: the one call is the
    patch carrying the whole current snapshot, the active id and the
    number of sessions stay as they were. *)
Theorem newChat_on_empty_session (st : State) (upd : Session) :
  sessions st <> [] ->
  JS.truthy (activeSessionId st) = true ->
  message_count st (activeSessionId st) = 0%nat ->
  let body :=
    {| p_model_alias := Some (modelAlias st); p_use_rag := Some (useRag st);
       p_rag_corpus_ids := Some (ragCorpusIds st); p_meta_stream := Some (useStream st) |} in
  patchSession be (activeSessionId st) body = Some upd ->
  (newChat be st).1.1 = Ret tt /\
  (newChat be st).2 = [Net (PatchSession (activeSessionId st) body)] /\
  activeSessionId (newChat be st).1.2 = activeSessionId st /\
  List.length (sessions (newChat be st).1.2) = List.length (sessions st).
Proof.
  intros Hs Ha Hm body Hp. unfold newChat. rewrite bind_get.
  set (c := {| c_modelAlias := _ |}).
  rewrite (ensureActiveSession_active be c st Hs Ha), Hm. cbn [Nat.ltb Nat.leb].
  rewrite (tryPatchConfig_patched be _ c st upd Hp). cbn [fst snd app].
  repeat split.
  - apply write_back_active.
  - rewrite write_back_sessions. apply replace_first_length.
Qed.

(** X26. Toggling RAG on an active session that has messages, below
    the session quota and with a model alias in the snapshot, asks the
    backend for a new session that carries the snapshot with the RAG
    flag inverted, and activates the session the backend returns. *)
Theorem toggleRag_creates_flipped (st : State) (s : Session) :
  sessions st <> [] ->
  JS.truthy (activeSessionId st) = true ->
  (0 < message_count st (activeSessionId st))%nat ->
  (List.length (sessions st) < QUOTA.MAX_SESSIONS)%nat ->
  JS.truthy (modelAlias st) = true ->
  let body :=
    {| b_model_alias := modelAlias st; b_use_rag := negb (useRag st);
       b_rag_corpus_ids := ragCorpusIds st; b_meta_stream := useStream st |} in
  createSession be body = Some s ->
  toggleRag be st = (Ret tt, activate s st, [Net (CreateSession body)]) /\
  useRag (activate s st) = use_rag s /\
  activeSessionId (activate s st) = id s.
Proof.
  intros Hs Ha Hm Hq Hal body Hc. unfold toggleRag. rewrite bind_get.
  set (c := {| c_modelAlias := _ |}).
  rewrite (ensureActiveSession_active be c st Hs Ha).
  apply Nat.ltb_lt in Hm. rewrite Hm.
  assert (R : resolve_alias c st = modelAlias st)
    by (apply resolve_alias_given; [reflexivity | exact Hal]).
  rewrite (createAndActivate_ok be c st s Hq); rewrite ?R; try assumption.
  repeat split.
Qed.

End ComponentFacts.

(** ** The reader on event-stream frames *)

Section FrameFacts.

Import Stream Frames.

Lemma split_LF_line (l t : string) :
  has_LF l = false ->
  JS.split LF (l +:+ LF +:+ t) = l :: JS.split LF t.
Proof.
  unfold JS.split, LF. induction l as [|c l IH]; intros H.
  - reflexivity.
  - cbn [has_LF] in H. apply orb_false_elim in H as [Hc Hl].
    rewrite str_app_cons. cbn [JS.split_go JS.startsWith].
    rewrite Hc. cbn [andb]. rewrite (IH Hl). reflexivity.
Qed.

Lemma is_line_spec (l : string) :
  is_line l = true -> l <> "" /\ has_LF l = false.
Proof.
  unfold is_line. intros [H1 H2]%andb_prop. apply negb_true_iff in H2.
  split; [|exact H2]. intros ->. discriminate.
Qed.

(** Splitting the joined lines of a frame gives the lines back. *)
Lemma split_join_lines (ls : list string) :
  is_frame ls = true -> JS.split LF (join_lines ls) = ls.
Proof.
  destruct ls as [|l ls]; [discriminate|]. cbn [is_frame].
  revert l. induction ls as [|l2 ls IH]; intros l H.
  - cbn [forallb] in H. apply andb_prop in H as [H _].
    apply split_LF_plain, is_line_spec, H.
  - cbn [forallb] in H. apply andb_prop in H as [Hl H].
    change (join_lines (l :: l2 :: ls)) with (l +:+ LF +:+ join_lines (l2 :: ls)).
    rewrite split_LF_line by (apply is_line_spec, Hl).
    rewrite (IH l2 H). reflexivity.
Qed.

Lemma has_LFLF_cons (c d : ascii) (r : string) :
  has_LFLF (String c (String d r)) =
  (Ascii.eqb c "010" && Ascii.eqb d "010") || has_LFLF (String d r).
Proof. reflexivity. Qed.

Lemma has_LFLF_line (l t : string) :
  has_LF l = false -> l <> "" ->
  has_LFLF (l +:+ LF +:+ t) = has_LFLF (LF +:+ t).
Proof.
  destruct l as [|c l]; [contradiction|]. intros H _. revert c H.
  induction l as [|d l IH]; intros c H;
    cbn [has_LF] in H; apply orb_false_elim in H as [Hc Hl].
  - change (String c "" +:+ LF +:+ t) with (String c (String "010" t)).
    rewrite has_LFLF_cons, Hc. reflexivity.
  - change (String c (String d l) +:+ LF +:+ t)
      with (String c (String d (l +:+ LF +:+ t))).
    rewrite has_LFLF_cons, Hc. cbn [andb orb].
    apply (IH d Hl).
Qed.

Lemma ends_LF_app (l t : string) : t <> "" -> ends_LF (l +:+ t) = ends_LF t.
Proof.
  intros Ht. induction l as [|c l IH]; [reflexivity|].
  rewrite str_app_cons. cbn [ends_LF].
  destruct (l +:+ t) eqn:E; [|exact IH].
  destruct l; [|discriminate]. cbn in E. contradiction.
Qed.

Lemma has_LF_ends (s : string) : has_LF s = false -> ends_LF s = false.
Proof.
  induction s as [|c s IH]; [reflexivity|]. cbn [has_LF ends_LF].
  intros [Hc Hs]%orb_false_elim. destruct s; [exact Hc | exact (IH Hs)].
Qed.

Lemma has_LF_LFLF (s : string) : has_LF s = false -> has_LFLF s = false.
Proof.
  induction s as [|c s IH]; [reflexivity|]. cbn [has_LF has_LFLF].
  intros [Hc Hs]%orb_false_elim. destruct s; [reflexivity|].
  rewrite Hc, (IH Hs). reflexivity.
Qed.

(** The text of a frame holds no blank line, does not end with a line
    feed and is not empty. *)
Lemma join_lines_shape (ls : list string) :
  is_frame ls = true ->
  has_LFLF (join_lines ls) = false /\
  ends_LF (join_lines ls) = false /\
  join_lines ls <> "".
Proof.
  destruct ls as [|l ls]; [discriminate|]. cbn [is_frame].
  revert l. induction ls as [|l2 ls IH]; intros l H.
  - cbn [forallb] in H. apply andb_prop in H as [H _].
    apply is_line_spec in H as [Hne Hl]. cbn [join_lines].
    repeat split; [apply has_LF_LFLF, Hl | apply has_LF_ends, Hl | exact Hne].
  - cbn [forallb] in H. apply andb_prop in H as [Hl H].
    apply is_line_spec in Hl as [Hne Hl].
    destruct (IH l2 H) as (I1 & I2 & I3).
    change (join_lines (l :: l2 :: ls)) with (l +:+ LF +:+ join_lines (l2 :: ls)).
    repeat split.
    + rewrite has_LFLF_line by assumption.
      unfold LF. rewrite str_app_cons.
      change ("" +:+ join_lines (l2 :: ls)) with (join_lines (l2 :: ls)).
      destruct (join_lines (l2 :: ls)) as [|d t] eqn:E; [reflexivity|].
      cbn [has_LFLF] in *. rewrite I1, orb_false_r.
      assert (Hd : Ascii.eqb d "010" = false).
      { assert (L2 : is_line l2 = true).
        { cbn [forallb] in H. apply andb_prop in H as [H _]. exact H. }
        apply is_line_spec in L2 as [N2 F2].
        destruct l2 as [|d2 l2']; [contradiction|].
        cbn [has_LF] in F2. apply orb_false_elim in F2 as [F2 _].
        destruct ls; cbn [join_lines] in E.
        - injection E as <- _. exact F2.
        - rewrite str_app_cons in E. injection E as <- _. exact F2. }
      rewrite Hd, andb_false_r. reflexivity.
    + rewrite ends_LF_app; [|destruct (join_lines (l2 :: ls)); discriminate].
      unfold LF. rewrite str_app_cons.
      change ("" +:+ join_lines (l2 :: ls)) with (join_lines (l2 :: ls)).
      cbn [ends_LF]. destruct (join_lines (l2 :: ls)); [contradiction | exact I2].
    + destruct l; [contradiction | discriminate].
Qed.

(** A piece without blank line and without final line feed, followed by
    a terminator, is one frame. *)
Lemma split_LFLF_frame_text (s rest : string) :
  has_LFLF s = false -> ends_LF s = false ->
  JS.split LFLF (s +:+ LFLF +:+ rest) = s :: JS.split LFLF rest.
Proof.
  induction s as [|c|c d r IHr IHdr] using string_pair_ind; intros H1 H2.
  - apply split_LFLF_match.
  - cbn [ends_LF] in H2.
    change (String c "" +:+ LFLF +:+ rest)
      with (String c (String "010" (String "010" rest))).
    rewrite split_LFLF_skip by (intros [-> _]; discriminate).
    rewrite split_LFLF_match. reflexivity.
  - cbn [has_LFLF] in H1. apply orb_false_elim in H1 as [Hcd H1].
    rewrite !str_app_cons.
    rewrite split_LFLF_skip by (intros [-> ->]; discriminate).
    rewrite <- str_app_cons, (IHdr H1 H2). reflexivity.
Qed.

Lemma split_LFLF_body (frames : list (list string)) (partial : string) :
  forallb is_frame frames = true ->
  has_LFLF partial = false ->
  JS.split LFLF (body frames partial) = map join_lines frames ++ [partial].
Proof.
  intros Hf Hp. unfold body. induction frames as [|ls frames IH].
  - apply split_LFLF_plain, Hp.
  - cbn [forallb] in Hf. apply andb_prop in Hf as [Hls Hf].
    cbn [map concat_str app]. rewrite !str_app_assoc.
    destruct (join_lines_shape ls Hls) as (S1 & S2 & _).
    rewrite split_LFLF_frame_text by assumption.
    rewrite (IH Hf). reflexivity.
Qed.

Lemma frames_events_read (frames : list (list string)) :
  forallb is_frame frames = true ->
  frames_events (map join_lines frames) = read_frames frames.
Proof.
  unfold frames_events. induction frames as [|ls frames IH]; intros Hf; [reflexivity|].
  cbn [forallb] in Hf. apply andb_prop in Hf as [Hls Hf].
  cbn [map process_parts read_frames]. rewrite (split_join_lines ls Hls).
  destruct (find _ ls) as [l|]; [|exact (IH Hf)].
  destruct (String.eqb _ "[DONE]"); [reflexivity|].
  specialize (IH Hf). destruct (process_parts _) as [cbs [|]]; rewrite <- IH; reflexivity.
Qed.

(** X27. On a body of event-stream frames (each some non-empty lines
    and a blank line) followed by an unterminated rest, however cut into
    chunks, the reader calls [onChunk] once per frame that has a line
    starting with [data: ], with the text after that prefix on the first
    such line; frames without such a line (comments, [event:] or [id:]
    lines, [data:] without the space) give no call; the sentinel or the
    end of the body gives the one [onEnd]. *)
Theorem streamMessage_event_stream_frames
    (frames : list (list string)) (partial : string) (chunks : list string) :
  forallb is_frame frames = true ->
  has_LFLF partial = false ->
  concat_str chunks = body frames partial ->
  streamMessage chunks = read_frames frames.
Proof.
  intros Hf Hp Hbody.
  rewrite (streamMessage_frames chunks (map join_lines frames) partial).
  - apply frames_events_read, Hf.
  - rewrite Hbody. apply split_LFLF_body; assumption.
Qed.

End FrameFacts.

(** ** Closed instances of the further properties *)

Section MoreInstances.

Import Store.

Lemma first_reconcile_creates_one_witness :
  ensureActiveSession Sample.backend_up (Sample.config "m2") Fixtures.fresh =
  (Ret tt,
   activate (Sample.created (Sample.m2_body Fixtures.fresh)) Fixtures.fresh,
   [Net (CreateSession (Sample.m2_body Fixtures.fresh))]).
Proof.
  refine (proj1 (first_reconcile_creates_one Sample.backend_up (Sample.config "m2")
                   Fixtures.fresh (Sample.created (Sample.m2_body Fixtures.fresh)) _ _ _));
    reflexivity.
Defined.

Lemma patch_replaces_session_witness :
  sessionById (write_back "s1" Fixtures.patched Sample.idle) "s1" = Some Fixtures.patched.
Proof.
  refine (proj1 (proj2 (patch_replaces_session Sample.backend_up (Sample.config "m2")
                          Sample.idle "s1" (Sample.session "s1") Fixtures.patched _ _ _)));
    reflexivity.
Defined.

Lemma switchSession_other_witness :
  (switchSession Sample.backend_up "s2" Fixtures.two).2 = [Net (ListMessages "s2" 500 0)].
Proof.
  refine (proj1 (proj2 (switchSession_other Sample.backend_up "s2" Fixtures.two _))).
  discriminate.
Defined.

Lemma switchSession_snapshot_witness :
  Delivery.snapshot (switchSession Sample.backend_down "s2" Fixtures.two).1.2 =
  ("m1", false, [], true).
Proof.
  refine (switchSession_snapshot Sample.backend_down "s2" Fixtures.two _).
  discriminate.
Defined.

Lemma send_message_quota_witness :
  send Sample.backend_up Sample.clock "hi" Fixtures.full_cache =
  (Ret tt, Fixtures.full_cache, [Alerted MessageQuota]).
Proof.
  refine (proj1 (send_message_quota Sample.backend_up Sample.clock "hi"
                   Fixtures.full_cache _ _ _)).
  - reflexivity.
  - apply Nat.leb_le. vm_compute. reflexivity.
  - apply Nat.leb_le. vm_compute. reflexivity.
Defined.

Lemma send_without_streaming_witness :
  (send Sample.backend_down Sample.clock "hi" Fixtures.plain).1.1 = Ret tt.
Proof.
  refine (proj1 (send_without_streaming Sample.backend_down Sample.clock "hi"
                   Fixtures.plain _ _ _ _)).
  - reflexivity.
  - apply Nat.leb_le. vm_compute. reflexivity.
  - apply Nat.ltb_lt. vm_compute. reflexivity.
  - reflexivity.
Defined.

Lemma onChunks_concat_witness :
  messages (onChunks "s1" 2 "" ["a"; "b"; "c"] Sample.streaming_state).1.2 !! "s1" =
  Some [Sample.message 1 "s1" user "hi"; Sample.message 2 "s1" assistant "abc"].
Proof.
  refine (proj1 (proj2 (proj2
            (onChunks_concat "s1" 2 "" "a" ["b"; "c"] Sample.streaming_state
               [Sample.message 1 "s1" user "hi"] []
               (Sample.message 2 "s1" assistant "") _ _ _)))).
  - vm_compute. reflexivity.
  - repeat constructor. discriminate.
  - reflexivity.
Defined.

Lemma stream_round_trip_witness :
  messages
    (Delivery.deliver "s1" (Sample.clock 2 + 1) (Stream.streamMessage Fixtures.hello_chunks)
       (send Sample.backend_up Sample.clock "hi" Sample.idle).1.2).1.2 !! "s1" =
  Some [Delivery.userMsg Sample.clock "s1" "hi";
        set_content_text (Delivery.aiMsg Sample.clock "s1") "helloworld"].
Proof.
  refine (proj1 (proj2 (proj2
            (stream_round_trip Sample.backend_up Sample.clock "hi" Sample.idle
               ["hello"; "world"; "[DONE]"] "" Fixtures.hello_chunks
               _ _ _ _ _ _ _ _ _)))).
  - reflexivity.
  - apply Nat.leb_le. vm_compute. reflexivity.
  - apply Nat.ltb_lt. vm_compute. reflexivity.
  - reflexivity.
  - vm_compute. constructor.
  - vm_compute. discriminate.
  - repeat constructor.
  - reflexivity.
  - reflexivity.
Defined.

Lemma credential_life_cycle_witness :
  Requests.api_onRequest false
    (Requests.setToken "tok" (Sample.idle, Fixtures.browser)).2
    {| Requests.Authorization := None |} =
  Some {| Requests.Authorization := Some "Bearer tok" |}.
Proof.
  refine (proj1 (proj2 (credential_life_cycle "tok" (Sample.idle, Fixtures.browser)
                          {| Requests.Authorization := None |}
                          {| Transport.response_status := Some 401 |} _ _)));
    reflexivity.
Defined.

Lemma md_plain_text_witness : Markdown.md "hello world" = "hello world".
Proof. refine (md_plain_text "hello world" _). reflexivity. Defined.

Lemma composer_clears_rejected_text_witness :
  Components.composer_send Sample.backend_up Sample.clock
    (" " +:+ Fixtures.long_word) Sample.idle =
  (Ret "", Sample.idle, [Alerted InputTooLong]).
Proof.
  refine (composer_clears_rejected_text Sample.backend_up Sample.clock
            (" " +:+ Fixtures.long_word) Sample.idle _ _).
  - vm_compute. reflexivity.
  - apply Nat.ltb_lt. vm_compute. reflexivity.
Defined.

Lemma newChat_on_empty_session_witness :
  (Components.newChat Sample.backend_up Sample.idle).1.1 = Ret tt.
Proof.
  refine (proj1 (newChat_on_empty_session Sample.backend_up Sample.idle
                   {| id := "s1"; model_alias := "m1"; use_rag := false;
                      rag_corpus_ids := Some []; meta_stream := Some true; title := "" |}
                   _ _ _ _)).
  - discriminate.
  - reflexivity.
  - vm_compute. reflexivity.
  - reflexivity.
Defined.

Lemma toggleRag_creates_flipped_witness :
  Components.toggleRag Sample.backend_up Sample.busy =
  (Ret tt,
   activate
     (Sample.created {| b_model_alias := "m1"; b_use_rag := true;
                        b_rag_corpus_ids := []; b_meta_stream := true |})
     Sample.busy,
   [Net (CreateSession {| b_model_alias := "m1"; b_use_rag := true;
                          b_rag_corpus_ids := []; b_meta_stream := true |})]).
Proof.
  refine (proj1 (toggleRag_creates_flipped Sample.backend_up Sample.busy
                   (Sample.created {| b_model_alias := "m1"; b_use_rag := true;
                                      b_rag_corpus_ids := []; b_meta_stream := true |})
                   _ _ _ _ _ _)).
  - discriminate.
  - reflexivity.
  - apply Nat.ltb_lt. vm_compute. reflexivity.
  - apply Nat.ltb_lt. vm_compute. reflexivity.
  - reflexivity.
  - reflexivity.
Defined.

Lemma streamMessage_event_stream_frames_witness :
  Stream.streamMessage Fixtures.frames_chunks = [Stream.OnChunk "hello"; Stream.OnEnd].
Proof.
  refine (streamMessage_event_stream_frames Fixtures.frames "da" Fixtures.frames_chunks _ _ _);
    reflexivity.
Defined.

End MoreInstances.
